(** * SecureSearch: suggestion endpoint, spreadsheet proxy and client debouncer

    A shallow embedding of the server (Express handlers for [/api/search] and
    [/api/sheets/:spreadsheetId/:range]) and of the two search effects of the
    React client ([App.tsx]), followed by the properties of the specification.

    In the handlers and in the component, text is modelled by [string]: one
    [ascii] per character, i.e. the characters U+0000..U+00FF of a JavaScript
    string, for which [String.length] is the JavaScript [.length].  The way
    from [encodeURIComponent] in the client to [req.query] in the server is
    modelled for every JavaScript string, as a list of UTF-16 code units
    (module [Wire]). *)

From Stdlib Require Import List String Ascii Bool ZArith NArith Lia DecimalString.
Import ListNotations.
Local Open Scope string_scope.
Local Open Scope list_scope.

(** ** Text primitives of the host language *)
Module Text.

Definition code (c : ascii) : N := N_of_ascii c.

(** [String.prototype.trim] strips WhiteSpace and LineTerminator code
    points; in the modelled range these are TAB, LF, VT, FF, CR, SP, NBSP. *)
Definition is_space (c : ascii) : bool :=
  let n := code c in
  ((9 <=? n) && (n <=? 13) || (n =? 32) || (n =? 160))%N.

Fixpoint trim_start (s : string) : string :=
  match s with
  | EmptyString => EmptyString
  | String c s' => if is_space c then trim_start s' else s
  end.

(** Right trim: a character is dropped when it is white space and
    everything after it has been dropped. *)
Fixpoint trim_end (s : string) : string :=
  match s with
  | EmptyString => EmptyString
  | String c s' =>
      match trim_end s' with
      | EmptyString => if is_space c then EmptyString else String c EmptyString
      | t => String c t
      end
  end.

Definition trim (s : string) : string := trim_end (trim_start s).

(** ASCII-only case folding, the one SQLite's default LIKE uses. *)
Definition to_lower (c : ascii) : ascii :=
  let n := code c in
  if ((65 <=? n) && (n <=? 90))%N then ascii_of_N (n + 32) else c.

Definition eq_ci (c d : ascii) : bool := Ascii.eqb (to_lower c) (to_lower d).

(** [prefix_ci u s]: [u] is a prefix of [s] up to ASCII case. *)
Fixpoint prefix_ci (u s : string) : bool :=
  match u, s with
  | EmptyString, _ => true
  | String _ _, EmptyString => false
  | String c u', String d s' => eq_ci c d && prefix_ci u' s'
  end.

(** Reference literal matcher: [u] occurs somewhere in [s], ASCII
    case-insensitively, every character of [u] taken literally. *)
Fixpoint contains_ci (u s : string) : bool :=
  prefix_ci u s ||
  match s with
  | EmptyString => false
  | String _ s' => contains_ci u s'
  end.

(** Membership of a character in a text. *)
Fixpoint has_char (c : ascii) (s : string) : bool :=
  match s with
  | EmptyString => false
  | String d s' => Ascii.eqb c d || has_char c s'
  end.

Definition NUL : ascii := "000"%char.

(** A text seen as a NUL-terminated C string: everything before the first
    NUL character. *)
Fixpoint cstr (s : string) : string :=
  match s with
  | EmptyString => EmptyString
  | String c s' => if Ascii.eqb c NUL then EmptyString else String c (cstr s')
  end.

(** [skip n s]: [s] without its first [n] characters. *)
Fixpoint skip (n : nat) (s : string) : string :=
  match n, s with
  | O, _ => s
  | S _, EmptyString => EmptyString
  | S n', String _ s' => skip n' s'
  end.

End Text.

(** ** The row store *)
Module Sqlite.
Import Text.

(** A row of table [items]:
    [id INTEGER PRIMARY KEY AUTOINCREMENT, name TEXT NOT NULL,
     description TEXT, category TEXT]. *)
Record Item := mkItem {
  id : Z;
  name : string;
  description : option string;
  category : option string
}.

(** The [code] property of a thrown value: a number, or a string.  The
    handlers never look into a string code; they test it for truth and hand
    it to the response, which reads a 32-bit integer from it.  A string
    code therefore comes with that reading: [reads] is [ToInt32] of the
    string (404 for the string 404, 0 for a name such as ENOTFOUND). *)
Inductive Code :=
| CodeNumber (n : Z)
| CodeString (s : string) (reads : Z).

(** A value thrown by a library call ([catch (error)]): only the two
    properties the handlers read are kept, either may be [undefined]. *)
Record Exn := mkExn {
  err_code : option Code;
  err_message : option string
}.

(** The LIKE operator with its default settings: [%] matches any run of
    characters, [_] exactly one character, anything else itself up to ASCII
    case.  There is no ESCAPE clause in the statement, so no character of
    the pattern can be quoted. *)
Fixpoint like (p s : string) : bool :=
  match p with
  | EmptyString => match s with EmptyString => true | String _ _ => false end
  | String c p' =>
      if Ascii.eqb c "%" then
        (fix star (t : string) : bool :=
           like p' t ||
           match t with
           | EmptyString => false
           | String _ t' => star t'
           end) s
      else
        match s with
        | EmptyString => false
        | String d s' => (Ascii.eqb c "_" || eq_ci c d) && like p' s'
        end
  end.

(** [x LIKE y] on SQL values: NULL if an operand is NULL; the comparison
    routine reads both operands as NUL-terminated strings. *)
Definition like_op (subject : option string) (pattern : option string) : option bool :=
  match subject, pattern with
  | Some s, Some p => Some (like (cstr p) (cstr s))
  | _, _ => None
  end.

(** Three-valued OR. *)
Definition or3 (a b : option bool) : option bool :=
  match a, b with
  | Some true, _ | _, Some true => Some true
  | Some false, Some false => Some false
  | _, _ => None
  end.

Inductive Column := ColName | ColDescription.

Inductive Cond :=
| CLike (c : Column) (param : nat)
| COr (a b : Cond).

(** [SELECT * FROM items WHERE <cond> LIMIT <n>]. *)
Record Stmt := mkStmt { stmt_where : Cond; stmt_limit : nat }.

Definition column (c : Column) (r : Item) : option string :=
  match c with
  | ColName => Some (name r)
  | ColDescription => description r
  end.

Fixpoint eval_cond (w : Cond) (params : list string) (r : Item) : option bool :=
  match w with
  | CLike c i => like_op (column c r) (nth_error params i)
  | COr a b => or3 (eval_cond a params r) (eval_cond b params r)
  end.

(** A row is selected when the WHERE clause is true (not false, not NULL). *)
Definition selected (w : Cond) (params : list string) (r : Item) : bool :=
  match eval_cond w params r with
  | Some true => true
  | _ => false
  end.

(** Rows are scanned in table (rowid) order; LIMIT keeps the first ones. *)
Definition run_select (st : Stmt) (params : list string) (table : list Item) : list Item :=
  firstn (stmt_limit st) (filter (selected (stmt_where st) params) table).

(** The statement text of the search handler and its compiled form. *)
Definition search_sql : string :=
  "SELECT * FROM items WHERE name LIKE ? OR description LIKE ? LIMIT 5".

Definition search_stmt : Stmt :=
  mkStmt (COr (CLike ColName 0) (CLike ColDescription 1)) 5.

(** The database handle as the handler sees it: [db.prepare(sql)] and
    [stmt.all(...params)], each of which may throw. *)
Record Store := mkStore {
  prepare : string -> Exn + Stmt;
  all : Stmt -> list string -> Exn + list Item
}.

(** The store backed by a table.  Only the search statement is compiled;
    any other text is rejected the way a syntax error is. *)
Definition sqlite (table : list Item) : Store :=
  mkStore
    (fun sql =>
       if String.eqb sql search_sql then inr search_stmt
       else inl (mkExn None (Some "SQL statement outside the model")))
    (fun st params => inr (run_select st params table)).


(** A store that prepares statements but throws [e] when one is run. *)
Definition broken_all (e : Exn) : Store :=
  mkStore (fun _ => inr search_stmt) (fun _ _ => inl e).

(** The database file: the rows of [items] in rowid order, and the entry of
    [items] in [sqlite_sequence], the largest id the table ever held (0 when
    it never held a row). *)
Record Db := mkDb {
  rows : list Item;
  sequence : Z
}.

(** Row ids are signed 64-bit integers. *)
Definition max_rowid : Z := 9223372036854775807.

Definition largest_id (table : list Item) : Z :=
  fold_right (fun r m => Z.max (id r) m) 0%Z table.

(** [INTEGER PRIMARY KEY AUTOINCREMENT]: the new id is one more than the
    largest id that ever existed in the table; there is none when that one
    is the largest possible id. *)
Definition next_id (db : Db) : option Z :=
  let m := Z.max (sequence db) (largest_id (rows db)) in
  if (m <? max_rowid)%Z then Some (m + 1)%Z else None.

(** [insert.run(name, description, category)]: appends a row and moves the
    sequence, or throws when the ids are used up. *)
Definition insert_run (db : Db) (v : string * string * string) : Exn + Db :=
  let '(n, d, c) := v in
  match next_id db with
  | Some i => inr (mkDb (rows db ++ [mkItem i n (Some d) (Some c)]) i)
  | None => inl (mkExn (Some (CodeString "SQLITE_FULL" 0)) (Some "database or disk is full"))
  end.

(** [values.forEach(item => insert.run(item[0], item[1], item[2]))]: stops at
    the first insertion that throws. *)
Fixpoint insert_all (db : Db) (values : list (string * string * string)) : Exn + Db :=
  match values with
  | [] => inr db
  | v :: rest =>
      match insert_run db v with
      | inr db' => insert_all db' rest
      | inl e => inl e
      end
  end.

Definition seedData : list (string * string * string) :=
  [ ("Apple iPhone 15", "Latest smartphone from Apple", "Electronics");
    ("Samsung Galaxy S23", "High-end Android smartphone", "Electronics");
    ("Sony WH-1000XM5", "Noise-canceling headphones", "Audio");
    ("MacBook Pro 14", "Powerful laptop for professionals", "Computing");
    ("Dell XPS 13", "Compact and powerful ultrabook", "Computing");
    ("Nintendo Switch", "Hybrid gaming console", "Gaming");
    ("PlayStation 5", "Next-gen gaming console", "Gaming");
    ("Logitech MX Master 3S", "Ergonomic productivity mouse", "Accessories");
    ("Keychron K2", "Mechanical wireless keyboard", "Accessories");
    ("Kindle Paperwhite", "E-reader for book lovers", "Electronics") ].

(** [if (count.count === 0) seedData.forEach(insert.run)]. *)
Definition startup (db : Db) : Exn + Db :=
  if (List.length (rows db) =? 0)%nat then insert_all db seedData
  else inr db.

(** The table after start-up on a file from which no row was ever deleted
    (the sequence stands at the largest id of the table). *)
Definition seed (table : list Item) : list Item :=
  match startup (mkDb table (largest_id table)) with
  | inr db => rows db
  | inl _ => table
  end.

Definition seeded : list Item := seed [].

End Sqlite.

(** ** The server: request handlers *)
Module Server.
Import Text Sqlite.

(** The upstream response document ([response.data]), passed through as is. *)
Definition Payload := string.

(** What a handler does besides answering, in order. *)
Inductive Event :=
| EvPrepare (sql : string)                          (* db.prepare(sql) *)
| EvAll (params : list string)                      (* stmt.all(...params) *)
| EvConsoleError (label : string) (e : Exn)         (* console.error(label, e) *)
| EvJWT (email key : string) (scopes : list string) (* new google.auth.JWT *)
| EvValuesGet (spreadsheetId range : string).       (* the outbound call *)

Inductive Json :=
| JItems (rows : list Item)
| JObject (fields : list (string * string))
| JPayload (data : Payload).

Record Response := mkResponse { status : Z; body : Json }.

(** [res.json(b)] answers 200; [res.status(n).json(b)] answers [n]. *)
Definition res_json (b : Json) : Response := mkResponse 200 b.
Definition res_status_json (n : Z) (b : Json) : Response := mkResponse n b.

(** An object literal with string properties; a property whose value is
    [undefined] is left out when the object is serialised. *)
Fixpoint defined_props (props : list (string * option string)) : list (string * string) :=
  match props with
  | [] => []
  | (k, Some x) :: rest => (k, x) :: defined_props rest
  | (_, None) :: rest => defined_props rest
  end.

Definition object (props : list (string * option string)) : Json :=
  JObject (defined_props props).

(** Computations that log events and may throw. *)
Definition M (A : Type) : Type := list Event * (Exn + A).

Definition ret {A} (a : A) : M A := ([], inr a).
Definition throw {A} (e : Exn) : M A := ([], inl e).
Definition emit (ev : Event) : M unit := ([ev], inr tt).

Definition bind {A B} (m : M A) (k : A -> M B) : M B :=
  match m with
  | (t, inl e) => (t, inl e)
  | (t, inr a) => let '(t', r) := k a in (t ++ t', r)
  end.

Definition try_catch {A} (m : M A) (h : Exn -> M A) : M A :=
  match m with
  | (t, inl e) => let '(t', r) := h e in (t ++ t', r)
  | (t, inr a) => (t, inr a)
  end.

Definition lift {A} (r : Exn + A) : M A := ([], r).

Notation "x <- m ;; k" := (bind m (fun x => k))
  (at level 61, m at next level, right associativity).
Notation "m ;;; k" := (bind m (fun _ => k))
  (at level 61, right associativity).

Definition trace {A} (m : M A) : list Event := fst m.
Definition outcome {A} (m : M A) : Exn + A := snd m.

Definition db_prepare (db : Store) (sql : string) : M Stmt :=
  emit (EvPrepare sql) ;;; lift (prepare db sql).

Definition stmt_all (db : Store) (st : Stmt) (params : list string) : M (list Item) :=
  emit (EvAll params) ;;; lift (all db st params).

Definition console_error (label : string) (e : Exn) : M unit :=
  emit (EvConsoleError label e).

(** [!query] for [req.query.q as string]: absent or empty. *)
Definition falsy (v : option string) : bool :=
  match v with
  | None | Some EmptyString => true
  | Some (String _ _) => false
  end.

Definition js_length (v : option string) : nat :=
  match v with
  | Some s => String.length s
  | None => 0
  end.

(** The value of a variable known to be defined. *)
Definition the (v : option string) : string :=
  match v with
  | Some s => s
  | None => EmptyString
  end.

(** The template literal [`%${query}%`]. *)
Definition like_pattern (query : string) : string :=
  ("%" ++ query ++ "%")%string.

(** [app.get("/api/search", ...)]; [q] is [req.query.q]. *)
Definition search_handler (db : Store) (q : option string) : M Response :=
  if falsy q || (js_length q <? 2)%nat then
    ret (res_json (JItems []))
  else
    let query := the q in
    try_catch
      (stmt <- db_prepare db search_sql ;;
       results <- stmt_all db stmt [like_pattern query; like_pattern query] ;;
       ret (res_json (JItems results)))
      (fun error =>
         console_error "Search error:" error ;;;
         ret (res_status_json 500
                (object [("error", Some "Internal server error")]))).

(** [process.env], the two variables the proxy reads. *)
Record Env := mkEnv {
  GOOGLE_SERVICE_ACCOUNT_EMAIL : option string;
  GOOGLE_PRIVATE_KEY : option string
}.

(** [.replace(/\\n/g, "\n")]: every backslash followed by [n] becomes one
    line feed, scanning left to right. *)
Fixpoint unescape_newlines (s : string) : string :=
  match s with
  | EmptyString => EmptyString
  | String c s' =>
      match s' with
      | String d s'' =>
          if Ascii.eqb c "\" && Ascii.eqb d "n"
          then String "010" (unescape_newlines s'')
          else String c (unescape_newlines s')
      | EmptyString => String c EmptyString
      end
  end.

(** The external service as the proxy sees it: the awaited
    [sheets.spreadsheets.values.get] either yields [response.data] or
    throws. *)
Record Google := mkGoogle {
  values_get :
    forall (email key : string) (scopes : list string)
           (spreadsheetId range : string), Exn + Payload
}.

Definition readonly_scope : string :=
  "https://www.googleapis.com/auth/spreadsheets.readonly".

(** Truth of a code: zero and the empty string are false. *)
Definition truthy (c : Code) : bool :=
  match c with
  | CodeNumber n => negb (n =? 0)%Z
  | CodeString s _ => negb (String.eqb s EmptyString)
  end.

(** [error.code || 500]. *)
Definition code_or_500 (c : option Code) : Code :=
  match c with
  | Some v => if truthy v then v else CodeNumber 500
  | None => CodeNumber 500
  end.

(** [n | 0] on an integer: the signed 32-bit integer congruent to it. *)
Definition to_int32 (n : Z) : Z := ((n + 2 ^ 31) mod 2 ^ 32 - 2 ^ 31)%Z.

(** The integer the response reads from the value given to [res.status]. *)
Definition status_number (c : Code) : Z :=
  match c with
  | CodeNumber n => to_int32 n
  | CodeString _ reads => reads
  end.

Definition show_code (c : Code) : string :=
  match c with
  | CodeNumber n => NilZero.string_of_int (Z.to_int n)
  | CodeString s _ => s
  end.

(** What writing the head of the response throws for a status outside
    100..999. *)
Definition invalid_status (c : Code) : Exn :=
  mkExn (Some (CodeString "ERR_HTTP_INVALID_STATUS_CODE" 0))
        (Some ("Invalid status code: " ++ show_code c)%string).

(** [res.status(c).json(b)] for a status that is not a literal of the
    program: the answer is written only if the status read from [c] lies in
    100..999; otherwise the call throws and nothing is sent. *)
Definition res_status_code_json (c : Code) (b : Json) : M Response :=
  let n := status_number c in
  if ((100 <=? n) && (n <=? 999))%Z then ret (mkResponse n b)
  else throw (invalid_status c).

Definition config_error : Response :=
  res_status_json 500
    (object
       [("error", Some "Google Service Account credentials not configured on server.");
        ("details", Some "Please ensure GOOGLE_SERVICE_ACCOUNT_EMAIL and GOOGLE_PRIVATE_KEY are set.")]).

(** The answer of the [catch] branch of the proxy. *)
Definition upstream_error (error : Exn) : M Response :=
  res_status_code_json (code_or_500 (err_code error))
    (object
       [("error", Some "Failed to fetch data from Google Sheets.");
        ("message", err_message error)]).

(** [app.get("/api/sheets/:spreadsheetId/:range", ...)]. *)
Definition sheets_handler (env : Env) (api : Google)
           (spreadsheetId range : string) : M Response :=
  let clientEmail := GOOGLE_SERVICE_ACCOUNT_EMAIL env in
  let privateKey := option_map unescape_newlines (GOOGLE_PRIVATE_KEY env) in
  if falsy clientEmail || falsy privateKey then
    ret config_error
  else
    try_catch
      (emit (EvJWT (the clientEmail) (the privateKey) [readonly_scope]) ;;;
       emit (EvValuesGet spreadsheetId range) ;;;
       data <- lift (values_get api (the clientEmail) (the privateKey)
                       [readonly_scope] spreadsheetId range) ;;
       ret (res_json (JPayload data)))
      (fun error =>
         console_error "Sheets proxy error:" error ;;;
         upstream_error error).

End Server.

(** ** Percent-encoding and the query string *)
Module Uri.
Import Text.

Definition in_range (lo hi : N) (c : ascii) : bool :=
  ((lo <=? code c) && (code c <=? hi))%N.

(** Characters [encodeURIComponent] leaves as they are:
    letters, digits and [- _ . ! ~ * ' ( )]. *)
Definition unreserved (c : ascii) : bool :=
  in_range 65 90 c || in_range 97 122 c || in_range 48 57 c ||
  has_char c "-_.!~*'()".

Definition hex_digit (n : N) : ascii :=
  match String.get (N.to_nat n) "0123456789ABCDEF" with
  | Some d => d
  | None => "0"%char
  end.

(** One octet as [%XX], upper-case digits. *)
Definition pct (b : N) : string :=
  String "%" (String (hex_digit (b / 16)) (String (hex_digit (b mod 16)) EmptyString)).

(** The UTF-8 octets of a character of the modelled range: one octet below
    U+0080, two from U+0080 to U+00FF. *)
Definition utf8 (c : ascii) : list N :=
  let n := code c in
  if (n <? 128)%N then [n] else [192 + n / 64; 128 + n mod 64]%N.

Definition encode_char (c : ascii) : string :=
  if unreserved c then String c EmptyString
  else fold_right (fun b acc => (pct b ++ acc)%string) EmptyString (utf8 c).

Fixpoint encodeURIComponent (s : string) : string :=
  match s with
  | EmptyString => EmptyString
  | String c s' => (encode_char c ++ encodeURIComponent s')%string
  end.

(** *** Reading escapes *)

Definition unhex (c : ascii) : option N :=
  let n := code c in
  if in_range 48 57 c then Some (n - 48)%N
  else if in_range 65 70 c then Some (n - 55)%N
  else if in_range 97 102 c then Some (n - 87)%N
  else None.

Fixpoint plus_to_space (s : string) : string :=
  match s with
  | EmptyString => EmptyString
  | String c s' => String (if Ascii.eqb c "+" then " "%char else c) (plus_to_space s')
  end.

(** [s] up to the first [sep], and what follows it if [sep] occurs. *)
Fixpoint split_first (sep : ascii) (s : string) : string * option string :=
  match s with
  | EmptyString => (EmptyString, None)
  | String c s' =>
      if Ascii.eqb c sep then (EmptyString, Some s')
      else let '(a, b) := split_first sep s' in (String c a, b)
  end.

Fixpoint split (sep : ascii) (s : string) : list string :=
  match s with
  | EmptyString => [EmptyString]
  | String c s' =>
      if Ascii.eqb c sep then EmptyString :: split sep s'
      else match split sep s' with
           | x :: xs => String c x :: xs
           | [] => [String c EmptyString]
           end
  end.

End Uri.

(** ** The query text on the wire, for every text

    The component and the handlers above work on texts of the range
    U+0000..U+00FF.  What travels between them is modelled here for every
    JavaScript string: a string is the list of its UTF-16 code units. *)
Module Wire.
Import Text Sqlite Uri.

Definition jstring := list N.

(** The units of a text of the range U+0000..U+00FF, and back. *)
Fixpoint units (s : string) : jstring :=
  match s with
  | EmptyString => []
  | String c s' => code c :: units s'
  end.

Fixpoint to_text (u : jstring) : option string :=
  match u with
  | [] => Some EmptyString
  | x :: rest =>
      if (x <? 256)%N then option_map (String (ascii_of_N x)) (to_text rest)
      else None
  end.

(** WhiteSpace and LineTerminator code points, all of them single units. *)
Definition is_space (u : N) : bool :=
  ((9 <=? u) && (u <=? 13) || (u =? 32) || (u =? 160) || (u =? 5760) ||
   (8192 <=? u) && (u <=? 8202) || (u =? 8232) || (u =? 8233) || (u =? 8239) ||
   (u =? 8287) || (u =? 12288) || (u =? 65279))%N.

Fixpoint trim_start (s : jstring) : jstring :=
  match s with
  | [] => []
  | u :: rest => if is_space u then trim_start rest else s
  end.

Fixpoint trim_end (s : jstring) : jstring :=
  match s with
  | [] => []
  | u :: rest =>
      match trim_end rest with
      | [] => if is_space u then [] else [u]
      | t => u :: t
      end
  end.

Definition trim (s : jstring) : jstring := trim_end (trim_start s).

(** *** [encodeURIComponent] *)

Definition unreserved_unit (u : N) : bool :=
  (u <? 128)%N && unreserved (ascii_of_N u).

Definition is_high (u : N) : bool := ((55296 <=? u) && (u <=? 56319))%N.
Definition is_low (u : N) : bool := ((56320 <=? u) && (u <=? 57343))%N.

(** The UTF-8 octets of a code point. *)
Definition utf8_octets (cp : N) : list N :=
  if (cp <? 128)%N then [cp]
  else if (cp <? 2048)%N then [192 + cp / 64; 128 + cp mod 64]%N
  else if (cp <? 65536)%N then
    [224 + cp / 4096; 128 + (cp / 64) mod 64; 128 + cp mod 64]%N
  else
    [240 + cp / 262144; 128 + (cp / 4096) mod 64; 128 + (cp / 64) mod 64;
     128 + cp mod 64]%N.

Definition escape (cp : N) : string :=
  fold_right (fun b acc => (pct b ++ acc)%string) EmptyString (utf8_octets cp).

Definition URIError : Exn := mkExn None (Some "URI malformed").

(** Unreserved units stand for themselves; any other code point is
    escaped octet by octet; a surrogate that is not half of a pair makes the
    call throw. *)
Fixpoint encodeURIComponent (s : jstring) : Exn + string :=
  match s with
  | [] => inr EmptyString
  | u :: rest =>
      if unreserved_unit u then
        match encodeURIComponent rest with
        | inr t => inr (String (ascii_of_N u) t)
        | inl e => inl e
        end
      else if is_low u then inl URIError
      else if is_high u then
        match rest with
        | v :: rest' =>
            if is_low v then
              match encodeURIComponent rest' with
              | inr t =>
                  inr (escape (65536 + (u - 55296) * 1024 + (v - 56320)) ++ t)%string
              | inl e => inl e
              end
            else inl URIError
        | [] => inl URIError
        end
      else
        match encodeURIComponent rest with
        | inr t => inr (escape u ++ t)%string
        | inl e => inl e
        end
  end.

(** The requests [fetchSuggestions] sends for the text [query]: none when
    the trimmed text is shorter than 2, none when [encodeURIComponent]
    throws (the [catch] of the function takes the error), else one. *)
Definition fetchSuggestions (query : jstring) : list string :=
  if (List.length (trim query) <? 2)%nat then []
  else
    match encodeURIComponent query with
    | inr enc => [("/api/search?q=" ++ enc)%string]
    | inl _ => []
    end.

(** *** The query parser of the server *)

(** Escaped brackets are turned into brackets before anything else. *)
Fixpoint unbracket (s : string) : string :=
  match s with
  | EmptyString => EmptyString
  | String c s' =>
      match s' with
      | String h (String l s'') =>
          if Ascii.eqb c "%" && Ascii.eqb h "5" && (Ascii.eqb l "B" || Ascii.eqb l "b")
          then String "[" (unbracket s'')
          else if Ascii.eqb c "%" && Ascii.eqb h "5" && (Ascii.eqb l "D" || Ascii.eqb l "d")
          then String "]" (unbracket s'')
          else String c (unbracket s')
      | _ => String c (unbracket s')
      end
  end.

(** A text cut into literal units and escaped octets. *)
Inductive Piece := Lit (u : N) | Oct (b : N).

Fixpoint pieces (s : string) : option (list Piece) :=
  match s with
  | EmptyString => Some []
  | String c s' =>
      if Ascii.eqb c "%" then
        match s' with
        | String h (String l s'') =>
            match unhex h, unhex l, pieces s'' with
            | Some a, Some b, Some r => Some (Oct (16 * a + b) :: r)
            | _, _, _ => None
            end
        | _ => None
        end
      else option_map (cons (Lit (code c))) (pieces s')
  end.

(** The payload of a continuation octet [10xxxxxx]. *)
Definition continuation (p : Piece) : option N :=
  match p with
  | Oct b => if ((128 <=? b) && (b <=? 191))%N then Some (b - 128)%N else None
  | Lit _ => None
  end.

(** The UTF-16 units of a code point. *)
Definition utf16 (cp : N) : jstring :=
  if (cp <? 65536)%N then [cp]
  else [55296 + (cp - 65536) / 1024; 56320 + (cp - 65536) mod 1024]%N.

(** Octet sequences are read as UTF-8: shortest form only, no surrogate,
    nothing above U+10FFFF. *)
Fixpoint assemble (ps : list Piece) : option jstring :=
  match ps with
  | [] => Some []
  | Lit u :: r => option_map (cons u) (assemble r)
  | Oct b :: r =>
      if (b <? 128)%N then option_map (cons b) (assemble r)
      else if ((194 <=? b) && (b <=? 223))%N then
        match r with
        | p1 :: r1 =>
            match continuation p1 with
            | Some c1 => option_map (app (utf16 ((b - 192) * 64 + c1))) (assemble r1)
            | None => None
            end
        | [] => None
        end
      else if ((224 <=? b) && (b <=? 239))%N then
        match r with
        | p1 :: p2 :: r2 =>
            match continuation p1, continuation p2 with
            | Some c1, Some c2 =>
                let cp := ((b - 224) * 4096 + c1 * 64 + c2)%N in
                if ((2048 <=? cp) && negb ((55296 <=? cp) && (cp <=? 57343)))%N
                then option_map (app (utf16 cp)) (assemble r2)
                else None
            | _, _ => None
            end
        | _ => None
        end
      else if ((240 <=? b) && (b <=? 244))%N then
        match r with
        | p1 :: p2 :: p3 :: r3 =>
            match continuation p1, continuation p2, continuation p3 with
            | Some c1, Some c2, Some c3 =>
                let cp := ((b - 240) * 262144 + c1 * 4096 + c2 * 64 + c3)%N in
                if ((65536 <=? cp) && (cp <=? 1114111))%N
                then option_map (app (utf16 cp)) (assemble r3)
                else None
            | _, _, _ => None
            end
        | _ => None
        end
      else None
  end.

(** [decodeURIComponent]; [None] stands for the URIError it throws. *)
Definition decodeURIComponent (s : string) : option jstring :=
  match pieces s with
  | Some ps => assemble ps
  | None => None
  end.

(** The decoder of the parser: [+] means space, then
    [decodeURIComponent]; a text that does not decode is kept as it is. *)
Definition decode (s : string) : jstring :=
  let t := plus_to_space s in
  match decodeURIComponent t with
  | Some u => u
  | None => units t
  end.

(** A parameter is cut after the first [\]=] if there is one, else at the
    first [=]. *)
Fixpoint cut_bracket_equals (s : string) : option (string * string) :=
  match s with
  | EmptyString => None
  | String c s' =>
      match s' with
      | String d s'' =>
          if Ascii.eqb c "]" && Ascii.eqb d "=" then Some (String c EmptyString, s'')
          else match cut_bracket_equals s' with
               | Some (k, v) => Some (String c k, v)
               | None => None
               end
      | EmptyString => None
      end
  end.

Definition parse_part (part : string) : jstring * jstring :=
  match cut_bracket_equals part with
  | Some (k, v) => (decode k, decode v)
  | None =>
      let '(k, v) := split_first "=" part in
      (decode k, decode (match v with Some x => x | None => EmptyString end))
  end.

(** A bracket group [\[...\]] without brackets inside, starting here. *)
Fixpoint inside_group (k : jstring) : option (jstring * jstring) :=
  match k with
  | [] => None
  | u :: r =>
      if (u =? 93)%N then Some ([], r)
      else if (u =? 91)%N then None
      else match inside_group r with
           | Some (i, rest) => Some (u :: i, rest)
           | None => None
           end
  end.

Definition group_at (k : jstring) : option (jstring * jstring) :=
  match k with
  | u :: r => if (u =? 91)%N then inside_group r else None
  | [] => None
  end.

(** The first bracket group of a key: what precedes it, what it encloses,
    what follows it. *)
Fixpoint first_group (k : jstring) : option (jstring * jstring * jstring) :=
  match k with
  | [] => None
  | u :: r =>
      match group_at k with
      | Some (i, rest) => Some ([], i, rest)
      | None =>
          match first_group r with
          | Some (p, i, rest) => Some (u :: p, i, rest)
          | None => None
          end
      end
  end.

(** The property of [req.query] a key writes to, and whether it writes
    below it (a nested key such as [a\[b\]] or [a\[\]]) rather than to it.
    The empty key is ignored. *)
Definition root_of (key : jstring) : option (jstring * bool) :=
  match key with
  | [] => None
  | _ :: _ =>
      match first_group key with
      | None => Some (key, false)
      | Some ([], i, rest) =>
          Some (i, match first_group rest with Some _ => true | None => false end)
      | Some (parent, _, _) => Some (parent, true)
      end
  end.

(** The part of a request target after the first [?], without fragment. *)
Definition query_string (url : string) : string :=
  let '(u, _) := split_first "#" url in
  match snd (split_first "?" u) with
  | Some qs => qs
  | None => EmptyString
  end.

(** The parameters of a request target, at most 1000 of them. *)
Definition parameters (url : string) : list (jstring * jstring) :=
  map parse_part (firstn 1000 (split "&" (unbracket (query_string url)))).

Definition jstring_eqb (a b : jstring) : bool :=
  if list_eq_dec N.eq_dec a b then true else false.

(** The parameters that write to or below the property [name]. *)
Fixpoint hits (name : jstring) (ps : list (jstring * jstring)) : list (bool * jstring) :=
  match ps with
  | [] => []
  | (k, v) :: rest =>
      match root_of k with
      | Some (root, nested) =>
          if jstring_eqb root name then (nested, v) :: hits name rest
          else hits name rest
      | None => hits name rest
      end
  end.

(** A property of [req.query]: absent, a string, or something else (an
    array when the parameter is repeated, an array or an object when it is
    written with brackets). *)
Inductive QValue :=
| QUndefined
| QString (s : jstring)
| QOther.

(** [req.query.q]. *)
Definition req_query_q (url : string) : QValue :=
  match hits (units "q") (parameters url) with
  | [] => QUndefined
  | [(false, v)] => QString v
  | _ => QOther
  end.

(** The argument of the suggestion handler for a value of [req.query.q],
    when the value is in the range the handler is modelled on: absent, or a
    string of the range U+0000..U+00FF. *)
Definition handler_argument (v : QValue) : option (option string) :=
  match v with
  | QUndefined => Some None
  | QString s => option_map Some (to_text s)
  | QOther => None
  end.

End Wire.

(** ** The client: search box state and its effects *)
Module Client.
Import Text Sqlite Uri.

(** Component state ([useState]), the pending timeout of the fetch effect,
    the clock, and the requests issued so far (oldest first). *)
Record State := mkState {
  query : string;
  suggestions : list Item;
  isLoading : bool;
  showSuggestions : bool;
  selectedItem : option Item;
  timer : option (N * string);  (* due time, [query] captured by the closure *)
  now : N;
  requests : list string
}.

Definition quiet_period : N := 300.

Definition search_url (q : string) : string :=
  ("/api/search?q=" ++ encodeURIComponent q)%string.

(** The effect runs once when the component mounts, with the empty query. *)
Definition mount : State :=
  mkState EmptyString [] false false None (Some (quiet_period, EmptyString)) 0 [].

(** [setQuery(v)]: setting the value the state already has changes nothing;
    otherwise the component re-renders, the cleanup of the previous effect
    clears its timeout and the effect sets a new one. *)
Definition setQuery (v : string) (s : State) : State :=
  if String.eqb v (query s) then s
  else mkState v (suggestions s) (isLoading s) (showSuggestions s) (selectedItem s)
               (Some ((now s + quiet_period)%N, v)) (now s) (requests s).

Definition setShowSuggestions (b : bool) (s : State) : State :=
  mkState (query s) (suggestions s) (isLoading s) b (selectedItem s)
          (timer s) (now s) (requests s).

Definition setSuggestions (l : list Item) (s : State) : State :=
  mkState (query s) l (isLoading s) (showSuggestions s) (selectedItem s)
          (timer s) (now s) (requests s).

Definition setIsLoading (b : bool) (s : State) : State :=
  mkState (query s) (suggestions s) b (showSuggestions s) (selectedItem s)
          (timer s) (now s) (requests s).

Definition setSelectedItem (i : Item) (s : State) : State :=
  mkState (query s) (suggestions s) (isLoading s) (showSuggestions s) (Some i)
          (timer s) (now s) (requests s).

Definition send (url : string) (s : State) : State :=
  mkState (query s) (suggestions s) (isLoading s) (showSuggestions s) (selectedItem s)
          (timer s) (now s) (requests s ++ [url]).

(** [onChange={(e) => setQuery(e.target.value)}]. *)
Definition onChange (v : string) (s : State) : State := setQuery v s.

(** [onFocus={() => query.length >= 2 && setShowSuggestions(true)}]. *)
Definition onFocus (s : State) : State :=
  if (2 <=? String.length (query s))%nat then setShowSuggestions true s else s.

(** [handleClickOutside], for a click outside the search region. *)
Definition handleClickOutside (s : State) : State := setShowSuggestions false s.

Definition handleSelectSuggestion (item : Item) (s : State) : State :=
  setShowSuggestions false (setQuery (name item) (setSelectedItem item s)).

(** [fetchSuggestions] up to the [await]: the guard, the loading flag and
    the request; [q] is the query the closure captured. *)
Definition fetchSuggestions (q : string) (s : State) : State :=
  if (String.length (trim q) <? 2)%nat then setSuggestions [] s
  else send (search_url q) (setIsLoading true s).

(** The rest of [fetchSuggestions], when the response arrives: [ok] is
    [response.ok], [data] the parsed body. *)
Definition on_response (ok : bool) (data : list Item) (s : State) : State :=
  setIsLoading false
    (if ok then setShowSuggestions true (setSuggestions data s) else s).

(** ... or when [fetch] rejects. *)
Definition on_failure (s : State) : State := setIsLoading false s.

(** Time passes: the pending timeout fires once its delay has elapsed. *)
Definition advance (dt : N) (s : State) : State :=
  let t := (now s + dt)%N in
  let s' := mkState (query s) (suggestions s) (isLoading s) (showSuggestions s)
                    (selectedItem s) (timer s) t (requests s) in
  match timer s with
  | Some (due, q) =>
      if (due <=? t)%N then
        fetchSuggestions q
          (mkState (query s) (suggestions s) (isLoading s) (showSuggestions s)
                   (selectedItem s) None t (requests s))
      else s'
  | None => s'
  end.

(** What happens to the component. *)
Inductive Action :=
| Wait (dt : N)
| Change (v : string)
| Focus
| ClickOutside
| Select (item : Item)
| Response (ok : bool) (data : list Item)
| Failure.

Definition step (s : State) (a : Action) : State :=
  match a with
  | Wait dt => advance dt s
  | Change v => onChange v s
  | Focus => onFocus s
  | ClickOutside => handleClickOutside s
  | Select item => handleSelectSuggestion item s
  | Response ok data => on_response ok data s
  | Failure => on_failure s
  end.

Definition run (s : State) (l : list Action) : State := fold_left step l s.


End Client.

(** ** Reference notions the properties are stated with *)
Module Reference.
Import Text Sqlite Server.

(** The reference matcher of the specification: the text occurs literally,
    up to ASCII case, in the name or in the description of the row. *)
Definition literal_match (q : string) (r : Item) : bool :=
  contains_ci q (name r) ||
  match description r with
  | Some d => contains_ci q d
  | None => false
  end.

(** The rows a literal search would return, with the same cap and order. *)
Definition literal_search (q : string) (table : list Item) : list Item :=
  firstn 5 (filter (literal_match q) table).

(** No character of [q] is a LIKE wildcard. *)
Definition plain (q : string) : bool :=
  negb (has_char "%" q) && negb (has_char "_" q).

Definition nul_free (s : string) : bool := negb (has_char NUL s).

(** The text columns the search reads hold no NUL character. *)
Definition clean_row (r : Item) : bool :=
  nul_free (name r) &&
  match description r with
  | Some d => nul_free d
  | None => true
  end.

(** The WHERE clause of the search statement for query [q]. *)
Definition matches (q : string) (r : Item) : bool :=
  selected (stmt_where search_stmt) [like_pattern q; like_pattern q] r.

(** A variable of the configuration is set to a non-empty value. *)
Definition configured (v : option string) : Prop :=
  exists c s, v = Some (String c s).


(** A client state in which the timeout of the latest change is pending. *)
Definition armed (s : Client.State) : Prop :=
  Client.timer s = Some ((Client.now s + Client.quiet_period)%N, Client.query s).

(** The network call, if any, that the effect makes for the text [q]. *)
Definition call_for (q : string) : list string :=
  if (String.length (trim q) <? 2)%nat then [] else [Client.search_url q].

End Reference.

(** ** Observations on texts, traces and client states *)
Module Observe.
Import Text Sqlite Server Uri Client.

(** ASCII lower-casing of a whole text. *)
Fixpoint lower (s : string) : string :=
  match s with
  | EmptyString => EmptyString
  | String c s' => String (to_lower c) (lower s')
  end.

(** The text contains an escaped line break: a backslash followed by [n]. *)
Fixpoint has_escape (s : string) : bool :=
  match s with
  | EmptyString => false
  | String c s' =>
      match s' with
      | String d _ => (Ascii.eqb c "\" && Ascii.eqb d "n") || has_escape s'
      | EmptyString => false
      end
  end.

Fixpoint all_chars (p : ascii -> bool) (s : string) : bool :=
  match s with
  | EmptyString => true
  | String c s' => p c && all_chars p s'
  end.

(** Characters of an encoded component: unreserved ones, [%] and the
    upper-case hexadecimal digits (the digits are unreserved already). *)
Definition url_safe (c : ascii) : bool :=
  unreserved c || Ascii.eqb c "%".

Definition is_prepare (ev : Event) : bool :=
  match ev with EvPrepare _ => true | _ => false end.

Definition is_all (ev : Event) : bool :=
  match ev with EvAll _ => true | _ => false end.

Definition is_call (ev : Event) : bool :=
  match ev with EvValuesGet _ _ => true | _ => false end.

Definition is_jwt (ev : Event) : bool :=
  match ev with EvJWT _ _ _ => true | _ => false end.

(** The fixed body of the 500 answer of the suggestion endpoint. *)
Definition generic_500 : Server.Response :=
  mkResponse 500 (JObject [("error", "Internal server error")]).

(** Ids grow along the table. *)
Fixpoint increasing (below : Z) (ids : list Z) : Prop :=
  match ids with
  | [] => True
  | i :: rest => (below < i)%Z /\ increasing i rest
  end.

(** The render condition of the dropdown:
    [showSuggestions && suggestions.length > 0]. *)
Definition dropdown_visible (s : State) : bool :=
  showSuggestions s && (0 <? List.length (suggestions s))%nat.

(** Actions that set the text of the search box. *)
Definition is_edit (a : Action) : bool :=
  match a with
  | Change _ | Select _ => true
  | _ => false
  end.

Definition edits (l : list Action) : nat := List.length (filter is_edit l).

(** 1 when a timeout is pending whose firing will send a request. *)
Definition pending_call (s : State) : nat :=
  match timer s with
  | Some (_, q) => if (String.length (trim q) <? 2)%nat then 0 else 1
  | None => 0
  end.

(** An escaped octet as the server reads it: the two bracket octets arrive
    as literal brackets, any other as an octet. *)
Definition restored_piece (b : N) : Wire.Piece :=
  if ((b =? 91) || (b =? 93))%N then Wire.Lit b else Wire.Oct b.

(** A unit of a well-formed string, and a code point that has an encoding. *)
Definition is_unit (u : N) : Prop := (u < 65536)%N.

Definition is_scalar (cp : N) : Prop :=
  (cp <= 1114111)%N /\ ~ (55296 <= cp <= 57343)%N.

(** The pending timeout, if any, belongs to the text in the box. *)
Definition tracks (s : State) : Prop :=
  forall due q, timer s = Some (due, q) ->
                q = query s /\ (due <= now s + quiet_period)%N.

(** Every request is for a text of trimmed length at least 2. *)
Definition well_formed (urls : list string) : Prop :=
  forall u, In u urls -> exists q, u = search_url q /\ (2 <= String.length (trim q))%nat.

(** The whole path of one suggestion request: the target the client asks
    for is parsed by the server and handled on the table ([None] when
    [req.query.q] is outside the range the handler is modelled on). *)
Definition serve (table : list Item) (url : string) : option (M Server.Response) :=
  option_map (search_handler (sqlite table))
             (Wire.handler_argument (Wire.req_query_q url)).

End Observe.

(** * Properties *)

(** ** Pattern matching in the row store *)
Section LikeFacts.
Import Text Sqlite.

Lemma like_percent (p s : string) :
  like (String "%" p) s =
  like p s || match s with
              | EmptyString => false
              | String _ t => like (String "%" p) t
              end.
Proof. destruct s; reflexivity. Qed.

Lemma like_percent_here (p s : string) :
  like p s = true -> like (String "%" p) s = true.
Proof. intros H. rewrite like_percent, H. reflexivity. Qed.

Lemma like_percent_later (p t : string) (d : ascii) :
  like (String "%" p) t = true -> like (String "%" p) (String d t) = true.
Proof. intros H. rewrite like_percent, H. apply orb_true_r. Qed.

Lemma like_only_percent (s : string) : like "%" s = true.
Proof. induction s as [|d s IH]; [reflexivity|]. now apply like_percent_later. Qed.

Lemma like_cons (c d : ascii) (p s : string) :
  Ascii.eqb c "%" = false ->
  like (String c p) (String d s) = (Ascii.eqb c "_" || eq_ci c d) && like p s.
Proof. intros H. simpl. rewrite H. reflexivity. Qed.

Lemma like_cons_nil (c : ascii) (p : string) :
  Ascii.eqb c "%" = false -> like (String c p) EmptyString = false.
Proof. intros H. simpl. rewrite H. reflexivity. Qed.

(** A text that occurs literally at the head of the subject is matched by
    itself as a pattern, whatever characters it contains. *)
Lemma prefix_like (u r : string) :
  forall s, prefix_ci u s = true ->
            like r (skip (String.length u) s) = true ->
            like (u ++ r) s = true.
Proof.
  induction u as [|c u IH]; intros s Hp Hr.
  - exact Hr.
  - destruct s as [|d s]; [discriminate|].
    simpl in Hp. apply andb_prop in Hp as [Hcd Hp].
    specialize (IH s Hp Hr).
    change ((String c u ++ r)%string) with (String c (u ++ r)).
    destruct (Ascii.eqb c "%") eqn:Hc.
    + apply Ascii.eqb_eq in Hc. subst c.
      apply like_percent_later, like_percent_here, IH.
    + rewrite (like_cons _ _ _ _ Hc), Hcd, IH, orb_true_r. reflexivity.
Qed.

(** A text without wildcards matches exactly the subjects it is a prefix
    of, up to ASCII case. *)
Lemma plain_like (u r : string) :
  has_char "%" u = false -> has_char "_" u = false ->
  forall s, like (u ++ r) s = prefix_ci u s && like r (skip (String.length u) s).
Proof.
  induction u as [|c u IH]; intros Hpc Hus s.
  - reflexivity.
  - cbn [has_char] in Hpc, Hus.
    apply orb_false_elim in Hpc as [Hc Hpc].
    apply orb_false_elim in Hus as [Hu Hus].
    rewrite Ascii.eqb_sym in Hc. rewrite Ascii.eqb_sym in Hu.
    change ((String c u ++ r)%string) with (String c (u ++ r)).
    destruct s as [|d s].
    + now rewrite like_cons_nil.
    + rewrite (like_cons _ _ _ _ Hc), Hu, (IH Hpc Hus). simpl.
      now rewrite andb_assoc.
Qed.

Lemma contains_like (u s : string) :
  contains_ci u s = true -> like (String "%" (u ++ "%")) s = true.
Proof.
  induction s as [|d s IH]; cbn [contains_ci]; intros H.
  - rewrite orb_false_r in H.
    apply like_percent_here, prefix_like; [exact H | apply like_only_percent].
  - apply orb_prop in H as [H|H].
    + apply like_percent_here, prefix_like; [exact H | apply like_only_percent].
    + apply like_percent_later, IH, H.
Qed.

Lemma plain_like_contains (u s : string) :
  has_char "%" u = false -> has_char "_" u = false ->
  like (String "%" (u ++ "%")) s = contains_ci u s.
Proof.
  intros Hp Hu. induction s as [|d s IH].
  - rewrite like_percent, (plain_like _ _ Hp Hu), like_only_percent.
    cbn [contains_ci]. now rewrite andb_true_r.
  - rewrite like_percent, IH, (plain_like _ _ Hp Hu), like_only_percent.
    cbn [contains_ci]. now rewrite andb_true_r.
Qed.

Lemma cstr_nul_free (s : string) : has_char NUL s = false -> cstr s = s.
Proof.
  induction s as [|c s IH]; cbn [has_char cstr]; intros H; [reflexivity|].
  apply orb_false_elim in H as [Hc Hs].
  rewrite Ascii.eqb_sym in Hc. rewrite Hc, (IH Hs). reflexivity.
Qed.

Lemma has_char_app (c : ascii) (a b : string) :
  has_char c (a ++ b) = has_char c a || has_char c b.
Proof.
  induction a as [|d a IH]; cbn [has_char append]; [reflexivity|].
  now rewrite IH, orb_assoc.
Qed.

End LikeFacts.

(** ** The suggestion endpoint *)
Section SearchEndpoint.
Import Text Sqlite Server Reference.

Lemma guard_long (q : string) :
  (2 <= String.length q)%nat ->
  falsy (Some q) || (js_length (Some q) <? 2)%nat = false.
Proof.
  intros H. destruct q as [|c q]; [simpl in H; lia|].
  cbn [falsy js_length orb]. apply Nat.ltb_ge. exact H.
Qed.

Lemma guard_short (q : option string) :
  q = None \/ (exists s, q = Some s /\ (String.length s < 2)%nat) ->
  falsy q || (js_length q <? 2)%nat = true.
Proof.
  intros [->|[s [-> H]]]; [reflexivity|].
  cbn [js_length]. apply Nat.ltb_lt in H. rewrite H. apply orb_true_r.
Qed.

(** The three ways through the [try] block. *)
Lemma search_handler_rows (db : Store) (q : string) (st : Stmt) (rows : list Item) :
  (2 <= String.length q)%nat ->
  prepare db search_sql = inr st ->
  all db st [like_pattern q; like_pattern q] = inr rows ->
  search_handler db (Some q) =
    ([EvPrepare search_sql; EvAll [like_pattern q; like_pattern q]],
     inr (res_json (JItems rows))).
Proof.
  intros Hq Hp Ha. unfold search_handler. rewrite (guard_long q Hq).
  unfold db_prepare, stmt_all, try_catch, bind, lift, emit, ret, the.
  rewrite Hp, Ha. reflexivity.
Qed.

Lemma search_handler_prepare_fault (db : Store) (q : string) (e : Exn) :
  (2 <= String.length q)%nat ->
  prepare db search_sql = inl e ->
  search_handler db (Some q) =
    ([EvPrepare search_sql; EvConsoleError "Search error:" e],
     inr (res_status_json 500 (JObject [("error", "Internal server error")]))).
Proof.
  intros Hq Hp. unfold search_handler. rewrite (guard_long q Hq).
  unfold db_prepare, stmt_all, try_catch, bind, lift, emit, ret, the.
  rewrite Hp. reflexivity.
Qed.

Lemma search_handler_all_fault (db : Store) (q : string) (st : Stmt) (e : Exn) :
  (2 <= String.length q)%nat ->
  prepare db search_sql = inr st ->
  all db st [like_pattern q; like_pattern q] = inl e ->
  search_handler db (Some q) =
    ([EvPrepare search_sql; EvAll [like_pattern q; like_pattern q];
      EvConsoleError "Search error:" e],
     inr (res_status_json 500 (JObject [("error", "Internal server error")]))).
Proof.
  intros Hq Hp Ha. unfold search_handler. rewrite (guard_long q Hq).
  unfold db_prepare, stmt_all, try_catch, bind, lift, emit, ret, the.
  rewrite Hp, Ha. reflexivity.
Qed.

(** On a table, the handler answers with the first five selected rows. *)
Lemma search_handler_sqlite (table : list Item) (q : string) :
  (2 <= String.length q)%nat ->
  search_handler (sqlite table) (Some q) =
    ([EvPrepare search_sql; EvAll [like_pattern q; like_pattern q]],
     inr (res_json (JItems (firstn 5 (filter (matches q) table))))).
Proof.
  intros Hq.
  apply (search_handler_rows (sqlite table) q search_stmt); [exact Hq | reflexivity | reflexivity].
Qed.

Lemma matches_unfold (q : string) (r : Item) :
  matches q r =
  like (cstr (like_pattern q)) (cstr (name r)) ||
  match description r with
  | Some d => like (cstr (like_pattern q)) (cstr d)
  | None => false
  end.
Proof.
  unfold matches, selected. cbn [search_stmt stmt_where eval_cond column nth_error like_op].
  destruct (like (cstr (like_pattern q)) (cstr (name r)));
    destruct (description r) as [d|]; cbn [like_op or3]; try reflexivity;
    destruct (like (cstr (like_pattern q)) (cstr d)); reflexivity.
Qed.

Lemma cstr_like_pattern (q : string) :
  nul_free q = true -> cstr (like_pattern q) = String "%" (q ++ "%").
Proof.
  intros H. apply negb_true_iff in H. unfold like_pattern.
  apply cstr_nul_free.
  change ("%" ++ q ++ "%")%string with (String "%" (q ++ "%")).
  cbn [has_char]. rewrite has_char_app, H. reflexivity.
Qed.

Lemma clean_row_name (r : Item) : clean_row r = true -> cstr (name r) = name r.
Proof.
  unfold clean_row, nul_free. intros H. apply andb_prop in H as [H _].
  apply cstr_nul_free. now apply negb_true_iff.
Qed.

Lemma clean_row_description (r : Item) (d : string) :
  clean_row r = true -> description r = Some d -> cstr d = d.
Proof.
  unfold clean_row, nul_free. intros H E. rewrite E in H.
  apply andb_prop in H as [_ H]. apply cstr_nul_free. now apply negb_true_iff.
Qed.

(** Without wildcards the WHERE clause is the literal matcher. *)
Lemma matches_plain (q : string) (r : Item) :
  nul_free q = true -> plain q = true -> clean_row r = true ->
  matches q r = literal_match q r.
Proof.
  intros Hn Hp Hr. unfold plain in Hp. apply andb_prop in Hp as [Hp Hu].
  apply negb_true_iff in Hp. apply negb_true_iff in Hu.
  rewrite matches_unfold, (cstr_like_pattern q Hn), (clean_row_name r Hr).
  unfold literal_match. rewrite (plain_like_contains _ _ Hp Hu).
  destruct (description r) as [d|] eqn:E; [|reflexivity].
  now rewrite (clean_row_description r d Hr E), (plain_like_contains _ _ Hp Hu).
Qed.

(** With or without wildcards, a literal occurrence is matched. *)
Lemma matches_literal (q : string) (r : Item) :
  nul_free q = true -> clean_row r = true ->
  literal_match q r = true -> matches q r = true.
Proof.
  intros Hn Hr H.
  rewrite matches_unfold, (cstr_like_pattern q Hn), (clean_row_name r Hr).
  unfold literal_match in H. apply orb_prop in H as [H|H].
  - now rewrite (contains_like _ _ H).
  - destruct (description r) as [d|] eqn:E; [|discriminate].
    rewrite (clean_row_description r d Hr E), (contains_like _ _ H).
    apply orb_true_r.
Qed.

Lemma In_firstn_middle {A} (n : nat) (a b : list A) (x : A) :
  (List.length a < n)%nat -> In x (firstn n (a ++ x :: b)).
Proof.
  intros H. rewrite firstn_app.
  apply in_or_app. right.
  destruct (n - List.length a)%nat eqn:E; [lia|]. now left.
Qed.

End SearchEndpoint.

Section SearchClaims.
Import Text Sqlite Server Reference.




(** C3, as stated, fails for the LIKE wildcards: the query [i%5] returns
    the two rows in which an [i] is followed somewhere by a [5], although
    no row contains the text [i%5]. *)
Lemma search_percent_is_a_wildcard :
  literal_search "i%5" seeded = [] /\
  exists rows,
    search_handler (sqlite seeded) (Some "i%5") =
      ([EvPrepare search_sql; EvAll ["%i%5%"; "%i%5%"]], inr (res_json (JItems rows))) /\
    map name rows = ["Apple iPhone 15"; "PlayStation 5"].
Proof.
  split; [vm_compute; reflexivity|].
  eexists. split; [vm_compute; reflexivity | reflexivity].
Qed.

(** C3 (amended): the statement text handed to the store is always the same
    constant, the input being bound as the two parameters only; and for
    every table whose names and descriptions hold no NUL character and every
    input of length at least 2 that contains neither [%] nor [_] nor NUL, so
    in particular for inputs made of quotes and dashes, the rows returned
    are exactly those of the reference literal-substring match (ASCII
    case-insensitive, first five in table order). *)
Theorem search_plain_input_is_literal (table : list Item) (q : string) :
  (forall db sql, In (EvPrepare sql) (trace (search_handler db (Some q))) -> sql = search_sql) /\
  ((2 <= String.length q)%nat ->
   plain q = true -> nul_free q = true -> forallb clean_row table = true ->
   search_handler (sqlite table) (Some q) =
     ([EvPrepare search_sql; EvAll [like_pattern q; like_pattern q]],
      inr (res_json (JItems (literal_search q table))))).
Proof.
  split.
  - intros db sql. unfold search_handler.
    destruct (falsy (Some q) || (js_length (Some q) <? 2)%nat); [intros []|].
    unfold db_prepare, stmt_all, try_catch, bind, lift, emit, ret, console_error.
    destruct (prepare db search_sql) as [e|st]; cbn.
    + intros [H|[H|[]]]; [now injection H | discriminate].
    + destruct (all db st _) as [e|rows]; cbn.
      * intros [H|[H|[H|[]]]]; [now injection H | discriminate | discriminate].
      * intros [H|[H|[]]]; [now injection H | discriminate].
  - intros Hq Hp Hn Ht. rewrite (search_handler_sqlite table q Hq).
    unfold literal_search. do 5 f_equal.
    apply filter_ext_in. intros r Hr.
    apply matches_plain; [exact Hn | exact Hp|].
    rewrite forallb_forall in Ht. now apply Ht.
Qed.

Lemma search_plain_input_is_literal_witness :
  ((2 <= String.length "' OR 1=1 --")%nat /\ plain "' OR 1=1 --" = true /\
   nul_free "' OR 1=1 --" = true /\ forallb clean_row seeded = true) /\
  search_handler (sqlite seeded) (Some "' OR 1=1 --") =
    ([EvPrepare search_sql; EvAll ["%' OR 1=1 --%"; "%' OR 1=1 --%"]],
     inr (res_json (JItems (literal_search "' OR 1=1 --" seeded)))).
Proof.
  assert (H1 : (2 <= String.length "' OR 1=1 --")%nat) by (simpl; lia).
  assert (H2 : plain "' OR 1=1 --" = true) by reflexivity.
  assert (H3 : nul_free "' OR 1=1 --" = true) by reflexivity.
  assert (H4 : forallb clean_row seeded = true) by reflexivity.
  split; [now repeat split|].
  exact (proj2 (search_plain_input_is_literal seeded "' OR 1=1 --") H1 H2 H3 H4).
Defined.

(** C6, as stated, fails because of the cap: [on] occurs in the name of
    row 7 ([PlayStation 5]), but eight rows match and only the first five
    are returned. *)
Lemma search_cap_drops_matching_row :
  exists r, In r seeded /\ id r = 7%Z /\ name r = "PlayStation 5" /\
            contains_ci "on" (name r) = true /\
  exists rows,
    outcome (search_handler (sqlite seeded) (Some "on")) = inr (res_json (JItems rows)) /\
    map id rows = [1; 2; 3; 4; 6]%Z /\ ~ In r rows.
Proof.
  exists (mkItem 7 "PlayStation 5" (Some "Next-gen gaming console") (Some "Gaming")).
  split; [vm_compute; tauto|]. do 3 (split; [reflexivity|]).
  eexists. split; [vm_compute; reflexivity|]. split; [reflexivity|].
  intros H. apply (in_map id) in H. cbn in H.
  repeat (destruct H as [H|H]; [discriminate|]). exact H.
Qed.

(** C6 (amended): for every table whose names and descriptions hold no NUL
    character and every search text of length at least 2 that holds no NUL
    character, the endpoint answers with a list of rows such that (a) a row
    whose name or description contains the text, up to ASCII case, is in the
    list whenever fewer than five rows before it in the table are selected
    by the search; and (b) if the text contains no wildcard ([%], [_]) and
    occurs in neither field of any row, the list is empty. *)
Theorem search_finds_occurrences (table : list Item) (q : string) :
  (2 <= String.length q)%nat -> nul_free q = true ->
  forallb clean_row table = true ->
  exists rows,
    search_handler (sqlite table) (Some q) =
      ([EvPrepare search_sql; EvAll [like_pattern q; like_pattern q]],
       inr (res_json (JItems rows))) /\
    (forall pre r post,
        table = pre ++ r :: post -> literal_match q r = true ->
        (List.length (filter (matches q) pre) < 5)%nat -> In r rows) /\
    (plain q = true ->
     (forall r, In r table -> literal_match q r = false) -> rows = []).
Proof.
  intros Hq Hn Ht. rewrite forallb_forall in Ht.
  exists (firstn 5 (filter (matches q) table)).
  split; [apply (search_handler_sqlite table q Hq)|]. split.
  - intros pre r post -> Hm Hlen.
    rewrite filter_app. cbn [filter].
    rewrite (matches_literal q r Hn); [| apply Ht, in_elt | exact Hm].
    now apply In_firstn_middle.
  - intros Hp Hnone.
    replace (filter (matches q) table) with (@nil Item); [reflexivity|].
    symmetry. induction table as [|r t IH]; [reflexivity|].
    cbn [filter]. rewrite (matches_plain q r Hn Hp); [| apply Ht; now left].
    rewrite (Hnone r); [| now left].
    apply IH; intros; [apply Ht | apply Hnone]; now right.
Qed.

Lemma search_finds_occurrences_witness :
  ((2 <= String.length "key")%nat /\ nul_free "key" = true /\
   forallb clean_row seeded = true) /\
  exists rows,
    search_handler (sqlite seeded) (Some "key") =
      ([EvPrepare search_sql; EvAll [like_pattern "key"; like_pattern "key"]],
       inr (res_json (JItems rows))) /\
    (forall pre r post,
        seeded = pre ++ r :: post -> literal_match "key" r = true ->
        (List.length (filter (matches "key") pre) < 5)%nat -> In r rows) /\
    (plain "key" = true ->
     (forall r, In r seeded -> literal_match "key" r = false) -> rows = []).
Proof.
  assert (H1 : (2 <= String.length "key")%nat) by (simpl; lia).
  assert (H2 : nul_free "key" = true) by reflexivity.
  assert (H3 : forallb clean_row seeded = true) by reflexivity.
  split; [now repeat split|].
  exact (search_finds_occurrences seeded "key" H1 H2 H3).
Defined.

(** C7: for every table and every request, the suggestion endpoint answers
    200 with a sequence of at most 5 rows, however many rows match. *)
Theorem search_at_most_five (table : list Item) (q : option string) :
  exists rows,
    outcome (search_handler (sqlite table) q) = inr (res_json (JItems rows)) /\
    (List.length rows <= 5)%nat.
Proof.
  destruct (falsy q || (js_length q <? 2)%nat) eqn:G.
  - exists []. unfold search_handler. rewrite G. split; [reflexivity | simpl; lia].
  - exists (firstn 5 (filter (matches (the q)) table)).
    destruct q as [s|]; [|discriminate].
    assert (Hq : (2 <= String.length s)%nat).
    { apply orb_false_elim in G as [_ G]. now apply Nat.ltb_ge in G. }
    rewrite (search_handler_sqlite table s Hq). split; [reflexivity|].
    apply firstn_le_length.
Qed.

(** C8: for every request that reaches the store (query of length at least
    2) and every store on which preparing or running the statement throws
    [e], the endpoint catches it and answers 500 with the fixed body
    [{error: "Internal server error"}], which does not depend on [e]; [e]
    goes to the server log ([console.error]). *)
Theorem search_store_fault_is_generic (db : Store) (q : string) (e : Exn) :
  (2 <= String.length q)%nat ->
  (prepare db search_sql = inl e \/
   exists st, prepare db search_sql = inr st /\
              all db st [like_pattern q; like_pattern q] = inl e) ->
  outcome (search_handler db (Some q)) =
    inr (mkResponse 500 (JObject [("error", "Internal server error")])) /\
  In (EvConsoleError "Search error:" e) (trace (search_handler db (Some q))).
Proof.
  intros Hq [Hp|[st [Hp Ha]]].
  - rewrite (search_handler_prepare_fault db q e Hq Hp). cbn. auto.
  - rewrite (search_handler_all_fault db q st e Hq Hp Ha). cbn. auto.
Qed.

Lemma search_store_fault_is_generic_witness :
  let e := mkExn None (Some "SQLITE_IOERR: disk I/O error") in
  let db := broken_all e in
  ((2 <= String.length "mac")%nat /\
   (prepare db search_sql = inl e \/
    exists st, prepare db search_sql = inr st /\
               all db st [like_pattern "mac"; like_pattern "mac"] = inl e)) /\
  outcome (search_handler db (Some "mac")) =
    inr (mkResponse 500 (JObject [("error", "Internal server error")])) /\
  In (EvConsoleError "Search error:" e) (trace (search_handler db (Some "mac"))).
Proof.
  intros e db.
  assert (H1 : (2 <= String.length "mac")%nat) by (simpl; lia).
  assert (H2 : prepare db search_sql = inl e \/
               exists st, prepare db search_sql = inr st /\
                          all db st [like_pattern "mac"; like_pattern "mac"] = inl e).
  { right. exists search_stmt. split; reflexivity. }
  split; [now split|].
  exact (search_store_fault_is_generic db "mac" e H1 H2).
Defined.

End SearchClaims.

(** ** The spreadsheet proxy *)
Section ProxyEndpoint.
Import Text Sqlite Server Reference.

(** Unescaping line breaks never empties a key. *)
Lemma unescape_newlines_nonempty (c : ascii) (s : string) :
  exists c' s', unescape_newlines (String c s) = String c' s'.
Proof.
  destruct s as [|d s]; cbn [unescape_newlines]; [now eauto|].
  destruct (Ascii.eqb c "\" && Ascii.eqb d "n"); eauto.
Qed.

Lemma falsy_unescaped (k : option string) :
  falsy (option_map unescape_newlines k) = falsy k.
Proof.
  destruct k as [[|c s]|]; try reflexivity.
  cbn [option_map]. destruct (unescape_newlines_nonempty c s) as [c' [s' ->]].
  reflexivity.
Qed.

Lemma falsy_configured (v : option string) : falsy v = false <-> configured v.
Proof.
  split.
  - destruct v as [[|c s]|]; try discriminate. intros _. now exists c, s.
  - intros [c [s ->]]. reflexivity.
Qed.

(** The [catch] branch answers, or throws when the status is not one. *)
Lemma upstream_error_cases (e : Exn) :
  let c := code_or_500 (err_code e) in
  let n := status_number c in
  let b := object [("error", Some "Failed to fetch data from Google Sheets.");
                   ("message", err_message e)] in
  ((100 <= n <= 999)%Z /\ upstream_error e = ([], inr (mkResponse n b))) \/
  (~ (100 <= n <= 999)%Z /\ upstream_error e = ([], inl (invalid_status c))).
Proof.
  cbv zeta. unfold upstream_error, res_status_code_json.
  destruct (Z.leb_spec 100 (status_number (code_or_500 (err_code e))));
    destruct (Z.leb_spec (status_number (code_or_500 (err_code e))) 999);
    cbn [andb]; [left | right | right | right]; (split; [lia | reflexivity]).
Qed.

(** Past the configuration check, the handler builds the assertion, makes
    the call and maps its outcome. *)
Lemma sheets_handler_configured (env : Env) (api : Google) (sid range : string) :
  configured (GOOGLE_SERVICE_ACCOUNT_EMAIL env) ->
  configured (GOOGLE_PRIVATE_KEY env) ->
  let email := the (GOOGLE_SERVICE_ACCOUNT_EMAIL env) in
  let key := unescape_newlines (the (GOOGLE_PRIVATE_KEY env)) in
  sheets_handler env api sid range =
    match values_get api email key [readonly_scope] sid range with
    | inr data =>
        ([EvJWT email key [readonly_scope]; EvValuesGet sid range],
         inr (res_json (JPayload data)))
    | inl e =>
        ([EvJWT email key [readonly_scope]; EvValuesGet sid range;
          EvConsoleError "Sheets proxy error:" e],
         outcome (upstream_error e))
    end.
Proof.
  intros He Hk email key. unfold sheets_handler.
  rewrite falsy_unescaped.
  apply falsy_configured in He. apply falsy_configured in Hk as Hk'.
  rewrite He, Hk'. cbn [orb].
  destruct Hk as [c [s Ek]]. subst email key. rewrite Ek. cbn [option_map the].
  unfold try_catch, bind, lift, emit, ret, console_error.
  destruct (values_get api _ _ _ sid range) as [e|data]; [|reflexivity].
  destruct (upstream_error_cases e) as [[_ E]|[_ E]]; rewrite E; reflexivity.
Qed.

(** C4: for every proxy request, if the principal identifier or the private
    key is missing from the configuration (unset or set to the empty text),
    the endpoint answers 500 with the body [{error: "Google Service Account
    credentials not configured on server.", details: "Please ensure
    GOOGLE_SERVICE_ACCOUNT_EMAIL and GOOGLE_PRIVATE_KEY are set."}] and does
    nothing else: no assertion is built, no call is made.  If both are
    present, the assertion is built with them and the outbound call for the
    requested range is made.  No answer to an upstream failure equals the
    configuration answer. *)
Theorem proxy_configuration_gate (env : Env) (api : Google) (sid range : string) :
  (~ configured (GOOGLE_SERVICE_ACCOUNT_EMAIL env) \/
   ~ configured (GOOGLE_PRIVATE_KEY env) ->
   sheets_handler env api sid range =
     ([], inr (mkResponse 500
                 (JObject
                    [("error", "Google Service Account credentials not configured on server.");
                     ("details", "Please ensure GOOGLE_SERVICE_ACCOUNT_EMAIL and GOOGLE_PRIVATE_KEY are set.")])))) /\
  (configured (GOOGLE_SERVICE_ACCOUNT_EMAIL env) ->
   configured (GOOGLE_PRIVATE_KEY env) ->
   exists rest,
     trace (sheets_handler env api sid range) =
       EvJWT (the (GOOGLE_SERVICE_ACCOUNT_EMAIL env))
             (unescape_newlines (the (GOOGLE_PRIVATE_KEY env))) [readonly_scope]
       :: EvValuesGet sid range :: rest) /\
  (forall e resp,
     outcome (upstream_error e) = inr resp ->
     resp <> mkResponse 500
               (JObject
                  [("error", "Google Service Account credentials not configured on server.");
                   ("details", "Please ensure GOOGLE_SERVICE_ACCOUNT_EMAIL and GOOGLE_PRIVATE_KEY are set.")])).
Proof.
  split; [|split].
  - intros H. unfold sheets_handler. rewrite falsy_unescaped.
    destruct (falsy (GOOGLE_SERVICE_ACCOUNT_EMAIL env)) eqn:He; [reflexivity|].
    destruct (falsy (GOOGLE_PRIVATE_KEY env)) eqn:Hk; [reflexivity|].
    apply falsy_configured in He. apply falsy_configured in Hk. tauto.
  - intros He Hk. rewrite (sheets_handler_configured env api sid range He Hk).
    destruct (values_get api _ _ _ sid range); eexists; reflexivity.
  - intros e resp Ho Heq.
    destruct (upstream_error_cases e) as [[_ E]|[_ E]]; rewrite E in Ho;
      cbn [outcome snd] in Ho; [|discriminate].
    injection Ho as <-. unfold object in Heq. cbn [defined_props] in Heq.
    destruct (err_message e); discriminate.
Qed.

Lemma proxy_configuration_gate_witness :
  let api := mkGoogle (fun _ _ _ _ _ => inr "{}") in
  let unset := mkEnv (Some "svc@example.iam.gserviceaccount.com") None in
  let set := mkEnv (Some "svc@example.iam.gserviceaccount.com") (Some "KEY\nEND") in
  (~ configured (GOOGLE_SERVICE_ACCOUNT_EMAIL unset) \/
   ~ configured (GOOGLE_PRIVATE_KEY unset)) /\
  sheets_handler unset api "sheet1" "A1:B2" =
    ([], inr (mkResponse 500
                (JObject
                   [("error", "Google Service Account credentials not configured on server.");
                    ("details", "Please ensure GOOGLE_SERVICE_ACCOUNT_EMAIL and GOOGLE_PRIVATE_KEY are set.")]))) /\
  (configured (GOOGLE_SERVICE_ACCOUNT_EMAIL set) /\ configured (GOOGLE_PRIVATE_KEY set)) /\
  exists rest,
    trace (sheets_handler set api "sheet1" "A1:B2") =
      EvJWT "svc@example.iam.gserviceaccount.com" (String "K" (String "E" (String "Y"
              (String "010" "END")))) [readonly_scope]
      :: EvValuesGet "sheet1" "A1:B2" :: rest.
Proof.
  intros api unset set.
  assert (H1 : ~ configured (GOOGLE_SERVICE_ACCOUNT_EMAIL unset) \/
               ~ configured (GOOGLE_PRIVATE_KEY unset)).
  { right. intros [c [s H]]. discriminate H. }
  assert (H2 : configured (GOOGLE_SERVICE_ACCOUNT_EMAIL set)) by (eexists; eexists; reflexivity).
  assert (H3 : configured (GOOGLE_PRIVATE_KEY set)) by (eexists; eexists; reflexivity).
  split; [exact H1|].
  split; [exact (proj1 (proxy_configuration_gate unset api "sheet1" "A1:B2") H1)|].
  split; [now split|].
  exact (proj1 (proj2 (proxy_configuration_gate set api "sheet1" "A1:B2")) H2 H3).
Defined.

(** C5, evaluated: the upstream call fails with a lookup error, whose
    [code] is the name [ENOTFOUND].  The [catch] branch logs it and hands
    the name to [res.status]; no status can be read from it, writing the
    answer throws inside the [catch], nothing is sent and the error leaves
    the handler. *)
Theorem proxy_upstream_name_code_escapes :
  let e := mkExn (Some (CodeString "ENOTFOUND" 0))
                 (Some "getaddrinfo ENOTFOUND sheets.googleapis.com") in
  let api := mkGoogle (fun _ _ _ _ _ => inl e) in
  let env := mkEnv (Some "svc@example.iam.gserviceaccount.com") (Some "KEY") in
  sheets_handler env api "sheet1" "A1:B2" =
    ([EvJWT "svc@example.iam.gserviceaccount.com" "KEY" [readonly_scope];
      EvValuesGet "sheet1" "A1:B2";
      EvConsoleError "Sheets proxy error:" e],
     inl (mkExn (Some (CodeString "ERR_HTTP_INVALID_STATUS_CODE" 0))
                (Some "Invalid status code: ENOTFOUND"))).
Proof. reflexivity. Qed.

End ProxyEndpoint.

(** ** The client debouncer *)
Section Debounce.
Import Text Sqlite Uri Client Reference.


Lemma change_arms (s : State) (v : string) :
  v <> query s ->
  let s' := onChange v s in
  armed s' /\ query s' = v /\ requests s' = requests s.
Proof.
  intros H. unfold onChange, setQuery, armed.
  apply String.eqb_neq in H. rewrite H. cbn. auto.
Qed.




(** Once the quiet period has elapsed the pending timeout fires, once. *)
Lemma wait_long (s : State) (d : N) :
  armed s -> (quiet_period <= d)%N ->
  let s' := advance d s in
  timer s' = None /\ requests s' = requests s ++ call_for (query s).
Proof.
  unfold armed. intros Ha Hd. unfold advance. rewrite Ha.
  destruct (N.leb_spec (now s + quiet_period) (now s + d)) as [H|H]; [|lia].
  unfold fetchSuggestions, call_for.
  destruct (String.length (trim (query s)) <? 2)%nat; cbn.
  - now rewrite app_nil_r.
  - auto.
Qed.





End Debounce.

(** ** Selecting a suggestion *)
Section Selection.
Import Text Sqlite Uri Client Reference.

(** What the selection handler does at once. *)
Lemma select_immediate (s : State) (item : Item) :
  let s' := handleSelectSuggestion item s in
  query s' = name item /\ showSuggestions s' = false /\
  selectedItem s' = Some item /\ requests s' = requests s.
Proof.
  unfold handleSelectSuggestion, setShowSuggestions, setQuery, setSelectedItem.
  cbn [query suggestions isLoading showSuggestions selectedItem timer now requests].
  destruct (String.eqb_spec (name item) (query s)) as [E|E]; cbn; auto.
Qed.

(** ... and what follows from it: the selection changes [query], so the
    fetch effect runs again. *)
Lemma select_schedules_fetch (s : State) (item : Item) :
  name item <> query s ->
  let s' := handleSelectSuggestion item s in
  timer s' = Some ((now s + quiet_period)%N, name item) /\
  requests (advance quiet_period s') = requests s ++ call_for (name item).
Proof.
  intros H. unfold handleSelectSuggestion, setShowSuggestions, setQuery, setSelectedItem.
  cbn [query suggestions isLoading showSuggestions selectedItem timer now requests].
  apply String.eqb_neq in H. rewrite H.
  split; [reflexivity|].
  unfold advance. cbn [query suggestions isLoading showSuggestions selectedItem timer now requests].
  rewrite N.leb_refl. unfold fetchSuggestions, call_for.
  destruct (String.length (trim (name item)) <? 2)%nat; cbn; [now rewrite app_nil_r | reflexivity].
Qed.

(** C1, evaluated: the user types [ap], the suggestions arrive, the user
    picks [Apple iPhone 15].  The text and the dropdown are updated at
    once, but 300 time units later a second request is sent for the chosen
    name, and its response opens the dropdown again. *)
Theorem select_triggers_second_fetch :
  let item := mkItem 1 "Apple iPhone 15" (Some "Latest smartphone from Apple")
                     (Some "Electronics") in
  let s0 := run mount [Change "ap"; Wait 300; Response true [item]] in
  let s1 := step s0 (Select item) in
  let s2 := step s1 (Wait 300) in
  let s3 := step s2 (Response true [item]) in
  (requests s0 = ["/api/search?q=ap"] /\ showSuggestions s0 = true) /\
  (query s1 = "Apple iPhone 15" /\ showSuggestions s1 = false /\
   requests s1 = ["/api/search?q=ap"]) /\
  requests s2 = ["/api/search?q=ap"; "/api/search?q=Apple%20iPhone%2015"] /\
  showSuggestions s3 = true.
Proof. cbv zeta. repeat split; reflexivity. Qed.

End Selection.

(** ** The query text on its way to the server *)
Section Transport.
Import Text Sqlite Uri Client Reference Observe.

Ltac each_char c := destruct c as [[] [] [] [] [] [] [] []].
Ltac divmod := zify; Z.to_euclidean_division_equations; lia.

(** The encoding of a character holds none of the delimiters of a request
    target, and no [+]. *)
Lemma encode_char_delimiters (c : ascii) :
  has_char "#" (encode_char c) = false /\
  has_char "?" (encode_char c) = false /\
  has_char "&" (encode_char c) = false /\
  has_char "=" (encode_char c) = false /\
  has_char "+" (encode_char c) = false.
Proof. each_char c; vm_compute; repeat split. Qed.

Lemma encoded_delimiters (q : string) :
  has_char "#" (Uri.encodeURIComponent q) = false /\
  has_char "?" (Uri.encodeURIComponent q) = false /\
  has_char "&" (Uri.encodeURIComponent q) = false /\
  has_char "=" (Uri.encodeURIComponent q) = false /\
  has_char "+" (Uri.encodeURIComponent q) = false.
Proof.
  induction q as [|c q [H1 [H2 [H3 [H4 H5]]]]]; [repeat split|].
  destruct (encode_char_delimiters c) as [G1 [G2 [G3 [G4 G5]]]].
  cbn [Uri.encodeURIComponent]. rewrite !has_char_app.
  rewrite H1, H2, H3, H4, H5, G1, G2, G3, G4, G5. repeat split.
Qed.

Lemma plus_to_space_id (s : string) :
  has_char "+" s = false -> plus_to_space s = s.
Proof.
  induction s as [|c s IH]; cbn [has_char plus_to_space]; intros H; [reflexivity|].
  apply orb_false_elim in H as [Hc Hs].
  rewrite Ascii.eqb_sym in Hc. now rewrite Hc, (IH Hs).
Qed.

Lemma split_first_absent (sep : ascii) (s : string) :
  has_char sep s = false -> split_first sep s = (s, None).
Proof.
  induction s as [|c s IH]; cbn [has_char split_first]; intros H; [reflexivity|].
  apply orb_false_elim in H as [Hc Hs].
  rewrite Ascii.eqb_sym in Hc. now rewrite Hc, (IH Hs).
Qed.

Lemma split_absent (sep : ascii) (s : string) :
  has_char sep s = false -> split sep s = [s].
Proof.
  induction s as [|c s IH]; cbn [has_char split]; intros H; [reflexivity|].
  apply orb_false_elim in H as [Hc Hs].
  rewrite Ascii.eqb_sym in Hc. now rewrite Hc, (IH Hs).
Qed.

(** *** Brackets and octets *)

Lemma unbracket_plain (c : ascii) (s : string) :
  Ascii.eqb c "%" = false -> Wire.unbracket (String c s) = String c (Wire.unbracket s).
Proof.
  intros H. destruct s as [|h [|l s]]; cbn [Wire.unbracket]; rewrite ?H; reflexivity.
Qed.

Lemma unbracket_eq (s : string) :
  Wire.unbracket s =
  match s with
  | EmptyString => EmptyString
  | String c s' =>
      match s' with
      | String h (String l s'') =>
          if Ascii.eqb c "%" && Ascii.eqb h "5" && (Ascii.eqb l "B" || Ascii.eqb l "b")
          then String "[" (Wire.unbracket s'')
          else if Ascii.eqb c "%" && Ascii.eqb h "5" && (Ascii.eqb l "D" || Ascii.eqb l "d")
          then String "]" (Wire.unbracket s'')
          else String c (Wire.unbracket s')
      | _ => String c (Wire.unbracket s')
      end
  end.
Proof. destruct s; reflexivity. Qed.

Lemma unbracket_escape (h l : ascii) (t : string) :
  Ascii.eqb h "%" = false -> Ascii.eqb l "%" = false ->
  Wire.unbracket (String "%" (String h (String l t))) =
  if Ascii.eqb h "5" && (Ascii.eqb l "B" || Ascii.eqb l "b")
  then String "[" (Wire.unbracket t)
  else if Ascii.eqb h "5" && (Ascii.eqb l "D" || Ascii.eqb l "d")
  then String "]" (Wire.unbracket t)
  else String "%" (String h (String l (Wire.unbracket t))).
Proof.
  intros Hh Hl. rewrite unbracket_eq. cbv beta iota.
  rewrite Ascii.eqb_refl. cbn [andb].
  destruct (Ascii.eqb h "5" && (Ascii.eqb l "B" || Ascii.eqb l "b")); [reflexivity|].
  destruct (Ascii.eqb h "5" && (Ascii.eqb l "D" || Ascii.eqb l "d")); [reflexivity|].
  now rewrite (unbracket_plain h _ Hh), (unbracket_plain l _ Hl).
Qed.

(** An escaped octet after the brackets have been restored: a bracket for
    the two bracket octets, the escape itself for any other. *)
Lemma unbracket_octet (c : ascii) (t : string) :
  Wire.unbracket (pct (code c) ++ t) =
  ((if ((code c =? 91) || (code c =? 93))%N then String c EmptyString else pct (code c))
     ++ Wire.unbracket t)%string.
Proof.
  each_char c;
    match goal with
    | |- context [pct (code ?a)] =>
        let p := eval vm_compute in (pct (code a)) in
        let k := eval vm_compute in (code a) in
        change (pct (code a)) with p; change (code a) with k
    end;
    cbn [append]; rewrite unbracket_escape by reflexivity; reflexivity.
Qed.

Lemma pieces_escape (h l : ascii) (t : string) (a b : N) :
  unhex h = Some a -> unhex l = Some b ->
  Wire.pieces (String "%" (String h (String l t))) =
  option_map (cons (Wire.Oct (16 * a + b))) (Wire.pieces t).
Proof.
  intros Ha Hb. cbn [Wire.pieces]. rewrite Ascii.eqb_refl, Ha, Hb.
  destruct (Wire.pieces t); reflexivity.
Qed.

Lemma pieces_plain (c : ascii) (t : string) :
  Ascii.eqb c "%" = false ->
  Wire.pieces (String c t) = option_map (cons (Wire.Lit (code c))) (Wire.pieces t).
Proof. intros H. cbn [Wire.pieces]. now rewrite H. Qed.

Lemma pieces_octet (c : ascii) (t : string) :
  Wire.pieces (pct (code c) ++ t) = option_map (cons (Wire.Oct (code c))) (Wire.pieces t).
Proof.
  each_char c;
    match goal with
    | |- context [pct (code ?a)] =>
        let p := eval vm_compute in (pct (code a)) in
        let k := eval vm_compute in (code a) in
        change (pct (code a)) with p; change (code a) with k
    end;
    cbn [append]; erewrite pieces_escape by reflexivity; reflexivity.
Qed.

Lemma octet_is_char (b : N) : (b < 256)%N -> code (ascii_of_N b) = b.
Proof. intros H. unfold code. apply N_ascii_embedding. exact H. Qed.

(** *** Putting octets together *)

Lemma assemble_one (b : N) (r : list Wire.Piece) :
  (b < 128)%N ->
  Wire.assemble (Wire.Oct b :: r) = option_map (cons b) (Wire.assemble r).
Proof. intros H. cbn [Wire.assemble]. apply N.ltb_lt in H. now rewrite H. Qed.

Lemma continuation_octet (b : N) :
  (128 <= b <= 191)%N -> Wire.continuation (Wire.Oct b) = Some (b - 128)%N.
Proof.
  intros [H1 H2]. cbn [Wire.continuation].
  apply N.leb_le in H1. apply N.leb_le in H2. now rewrite H1, H2.
Qed.

Lemma assemble_two (cp : N) (r : list Wire.Piece) :
  (128 <= cp < 2048)%N ->
  Wire.assemble (Wire.Oct (192 + cp / 64) :: Wire.Oct (128 + cp mod 64) :: r) =
  option_map (app [cp]) (Wire.assemble r).
Proof.
  intros H. cbn [Wire.assemble].
  replace (192 + cp / 64 <? 128)%N with false by (symmetry; apply N.ltb_ge; divmod).
  replace ((194 <=? 192 + cp / 64) && (192 + cp / 64 <=? 223))%N with true
    by (symmetry; apply andb_true_intro; split; apply N.leb_le; divmod).
  rewrite continuation_octet by divmod.
  replace ((192 + cp / 64 - 192) * 64 + (128 + cp mod 64 - 128))%N with cp by divmod.
  unfold Wire.utf16.
  replace (cp <? 65536)%N with true by (symmetry; apply N.ltb_lt; lia). reflexivity.
Qed.

Lemma assemble_three (cp : N) (r : list Wire.Piece) :
  (2048 <= cp < 65536)%N -> ~ (55296 <= cp <= 57343)%N ->
  Wire.assemble (Wire.Oct (224 + cp / 4096) :: Wire.Oct (128 + (cp / 64) mod 64)
                   :: Wire.Oct (128 + cp mod 64) :: r) =
  option_map (app [cp]) (Wire.assemble r).
Proof.
  intros H Hs. cbn [Wire.assemble].
  replace (224 + cp / 4096 <? 128)%N with false by (symmetry; apply N.ltb_ge; divmod).
  replace ((194 <=? 224 + cp / 4096) && (224 + cp / 4096 <=? 223))%N with false
    by (symmetry; apply andb_false_intro2; apply N.leb_gt; divmod).
  replace ((224 <=? 224 + cp / 4096) && (224 + cp / 4096 <=? 239))%N with true
    by (symmetry; apply andb_true_intro; split; apply N.leb_le; divmod).
  rewrite !continuation_octet by divmod.
  replace ((224 + cp / 4096 - 224) * 4096 + (128 + (cp / 64) mod 64 - 128) * 64
           + (128 + cp mod 64 - 128))%N with cp by divmod.
  cbv zeta.
  replace ((2048 <=? cp) && negb ((55296 <=? cp) && (cp <=? 57343)))%N with true.
  - unfold Wire.utf16.
    replace (cp <? 65536)%N with true by (symmetry; apply N.ltb_lt; lia). reflexivity.
  - symmetry. apply andb_true_intro. split; [apply N.leb_le; lia|].
    apply negb_true_iff.
    destruct (N.leb_spec 55296 cp); destruct (N.leb_spec cp 57343); try reflexivity. lia.
Qed.

Lemma assemble_four (cp : N) (r : list Wire.Piece) :
  (65536 <= cp <= 1114111)%N ->
  Wire.assemble (Wire.Oct (240 + cp / 262144) :: Wire.Oct (128 + (cp / 4096) mod 64)
                   :: Wire.Oct (128 + (cp / 64) mod 64) :: Wire.Oct (128 + cp mod 64) :: r) =
  option_map (app (Wire.utf16 cp)) (Wire.assemble r).
Proof.
  intros H. cbn [Wire.assemble].
  replace (240 + cp / 262144 <? 128)%N with false by (symmetry; apply N.ltb_ge; divmod).
  replace ((194 <=? 240 + cp / 262144) && (240 + cp / 262144 <=? 223))%N with false
    by (symmetry; apply andb_false_intro2; apply N.leb_gt; divmod).
  replace ((224 <=? 240 + cp / 262144) && (240 + cp / 262144 <=? 239))%N with false
    by (symmetry; apply andb_false_intro2; apply N.leb_gt; divmod).
  replace ((240 <=? 240 + cp / 262144) && (240 + cp / 262144 <=? 244))%N with true
    by (symmetry; apply andb_true_intro; split; apply N.leb_le; divmod).
  rewrite !continuation_octet by divmod.
  replace ((240 + cp / 262144 - 240) * 262144 + (128 + (cp / 4096) mod 64 - 128) * 4096
           + (128 + (cp / 64) mod 64 - 128) * 64 + (128 + cp mod 64 - 128))%N
    with cp by divmod.
  cbv zeta.
  replace ((65536 <=? cp) && (cp <=? 1114111))%N with true
    by (symmetry; apply andb_true_intro; split; apply N.leb_le; lia).
  reflexivity.
Qed.

(** *** From octets to code points *)

Lemma bracket_octet_plain (c : ascii) :
  ((code c =? 91) || (code c =? 93))%N = true -> Ascii.eqb c "%" = false.
Proof. each_char c; intros H; try reflexivity; discriminate H. Qed.

Lemma octet_clean (c : ascii) :
  let w := if ((code c =? 91) || (code c =? 93))%N then String c EmptyString
           else pct (code c) in
  has_char "&" w = false /\ has_char "=" w = false /\ has_char "+" w = false /\
  has_char "#" (pct (code c)) = false.
Proof. each_char c; vm_compute; repeat split. Qed.

Lemma read_octet (c : ascii) (t : string) :
  Wire.pieces (Wire.unbracket (pct (code c) ++ t)) =
  option_map (cons (restored_piece (code c))) (Wire.pieces (Wire.unbracket t)).
Proof.
  rewrite unbracket_octet. unfold restored_piece.
  destruct ((code c =? 91) || (code c =? 93))%N eqn:E.
  - cbn [append]. apply pieces_plain. now apply bracket_octet_plain.
  - apply pieces_octet.
Qed.

Lemma append_assoc3 (a b c : string) : ((a ++ b) ++ c = a ++ (b ++ c))%string.
Proof. induction a as [|x a IH]; cbn [append]; [reflexivity | now rewrite IH]. Qed.

Lemma read_octets (bs : list N) (t : string) :
  Forall (fun b => (b < 256)%N) bs ->
  Wire.pieces (Wire.unbracket (fold_right (fun b acc => (pct b ++ acc)%string) EmptyString bs ++ t)) =
  option_map (app (map restored_piece bs)) (Wire.pieces (Wire.unbracket t)).
Proof.
  induction bs as [|b bs IH]; intros H; cbn [fold_right map].
  - cbn [append]. now destruct (Wire.pieces (Wire.unbracket t)).
  - inversion H as [|? ? Hb Hbs]; subst.
    rewrite append_assoc3.
    rewrite <- (octet_is_char b Hb). rewrite read_octet, (IH Hbs).
    now destruct (Wire.pieces (Wire.unbracket t)).
Qed.

Lemma clean_octets (bs : list N) (t : string) :
  Forall (fun b => (b < 256)%N) bs ->
  let e := fold_right (fun b acc => (pct b ++ acc)%string) EmptyString bs in
  has_char "#" (e ++ t) = has_char "#" t /\
  has_char "&" (Wire.unbracket (e ++ t)) = has_char "&" (Wire.unbracket t) /\
  has_char "=" (Wire.unbracket (e ++ t)) = has_char "=" (Wire.unbracket t) /\
  has_char "+" (Wire.unbracket (e ++ t)) = has_char "+" (Wire.unbracket t).
Proof.
  induction bs as [|b bs IH]; intros H; cbn [fold_right]; cbv zeta.
  - cbn [append]. auto.
  - inversion H as [|? ? Hb Hbs]; subst.
    destruct (IH Hbs) as [I1 [I2 [I3 I4]]]. cbv zeta in *.
    rewrite append_assoc3. rewrite <- (octet_is_char b Hb).
    destruct (octet_clean (ascii_of_N b)) as [C1 [C2 [C3 C4]]]. cbv zeta in *.
    repeat split.
    + now rewrite has_char_app, C4, I1.
    + now rewrite unbracket_octet, has_char_app, C1, I2.
    + now rewrite unbracket_octet, has_char_app, C2, I3.
    + now rewrite unbracket_octet, has_char_app, C3, I4.
Qed.

Lemma utf8_octets_small (cp : N) :
  (cp <= 1114111)%N -> Forall (fun b => (b < 256)%N) (Wire.utf8_octets cp).
Proof.
  intros H. unfold Wire.utf8_octets.
  destruct (N.ltb_spec cp 128); [repeat constructor; lia|].
  destruct (N.ltb_spec cp 2048); [repeat constructor; divmod|].
  destruct (N.ltb_spec cp 65536); repeat constructor; divmod.
Qed.

Lemma restored_high (b : N) : (128 <= b)%N -> restored_piece b = Wire.Oct b.
Proof.
  intros H. unfold restored_piece.
  replace (b =? 91)%N with false by (symmetry; apply N.eqb_neq; lia).
  replace (b =? 93)%N with false by (symmetry; apply N.eqb_neq; lia).
  reflexivity.
Qed.

Lemma assemble_escape (cp : N) (r : list Wire.Piece) :
  is_scalar cp ->
  Wire.assemble (map restored_piece (Wire.utf8_octets cp) ++ r) =
  option_map (app (Wire.utf16 cp)) (Wire.assemble r).
Proof.
  intros [Hmax Hsur]. unfold Wire.utf8_octets.
  destruct (N.ltb_spec cp 128) as [H1|H1].
  - cbn [map app]. unfold Wire.utf16.
    replace (cp <? 65536)%N with true by (symmetry; apply N.ltb_lt; lia).
    unfold restored_piece. destruct ((cp =? 91) || (cp =? 93))%N.
    + cbn [Wire.assemble]. now destruct (Wire.assemble r).
    + rewrite assemble_one by exact H1. now destruct (Wire.assemble r).
  - destruct (N.ltb_spec cp 2048) as [H2|H2].
    + cbn [map app]. rewrite !restored_high by divmod.
      rewrite assemble_two by lia. unfold Wire.utf16.
      replace (cp <? 65536)%N with true by (symmetry; apply N.ltb_lt; lia). reflexivity.
    + destruct (N.ltb_spec cp 65536) as [H3|H3].
      * cbn [map app]. rewrite !restored_high by divmod.
        rewrite assemble_three by (try lia; exact Hsur). unfold Wire.utf16.
        replace (cp <? 65536)%N with true by (symmetry; apply N.ltb_lt; lia). reflexivity.
      * cbn [map app]. rewrite !restored_high by divmod.
        now rewrite assemble_four by lia.
Qed.

Lemma decode_escape (cp : N) (t : string) :
  is_scalar cp ->
  Wire.decodeURIComponent (Wire.unbracket (Wire.escape cp ++ t)) =
  option_map (app (Wire.utf16 cp)) (Wire.decodeURIComponent (Wire.unbracket t)).
Proof.
  intros H. unfold Wire.decodeURIComponent, Wire.escape.
  rewrite read_octets by (apply utf8_octets_small, H).
  destruct (Wire.pieces (Wire.unbracket t)) as [ps|]; [|reflexivity].
  cbn [option_map]. now apply assemble_escape.
Qed.

Lemma unreserved_plain (a : ascii) :
  unreserved a = true ->
  Ascii.eqb a "%" = false /\ Ascii.eqb "#" a = false /\ Ascii.eqb "&" a = false /\
  Ascii.eqb "=" a = false /\ Ascii.eqb "+" a = false /\ (code a < 128)%N.
Proof. each_char a; intros H; try discriminate H; vm_compute; repeat split. Qed.

Lemma decode_unreserved (u : N) (t : string) :
  Wire.unreserved_unit u = true ->
  Wire.decodeURIComponent (Wire.unbracket (String (ascii_of_N u) t)) =
  option_map (cons u) (Wire.decodeURIComponent (Wire.unbracket t)).
Proof.
  unfold Wire.unreserved_unit. intros H. apply andb_prop in H as [Hu Ha].
  apply N.ltb_lt in Hu. destruct (unreserved_plain _ Ha) as [Hp _].
  unfold Wire.decodeURIComponent.
  rewrite (unbracket_plain _ _ Hp), (pieces_plain _ _ Hp), octet_is_char by lia.
  destruct (Wire.pieces (Wire.unbracket t)) as [ps|]; [|reflexivity].
  cbn [option_map Wire.assemble]. reflexivity.
Qed.

(** The units of a surrogate pair, from its code point and back. *)
Lemma utf16_pair (u v : N) :
  Wire.is_high u = true -> Wire.is_low v = true ->
  let cp := (65536 + (u - 55296) * 1024 + (v - 56320))%N in
  is_scalar cp /\ Wire.utf16 cp = [u; v].
Proof.
  unfold Wire.is_high, Wire.is_low. intros Hu Hv.
  apply andb_prop in Hu as [Hu1 Hu2]. apply andb_prop in Hv as [Hv1 Hv2].
  apply N.leb_le in Hu1, Hu2, Hv1, Hv2. cbv zeta. split.
  - split; lia.
  - unfold Wire.utf16.
    replace (65536 + (u - 55296) * 1024 + (v - 56320) <? 65536)%N with false
      by (symmetry; apply N.ltb_ge; lia).
    f_equal; [|f_equal]; divmod.
Qed.

Lemma utf16_unit (u : N) :
  is_unit u -> Wire.is_high u = false -> Wire.is_low u = false ->
  is_scalar u /\ Wire.utf16 u = [u].
Proof.
  unfold is_unit, Wire.is_high, Wire.is_low, is_scalar, Wire.utf16. intros Hu Hh Hl.
  replace (u <? 65536)%N with true by (symmetry; apply N.ltb_lt; lia).
  split; [|reflexivity]. split; [lia|]. intros [A B].
  destruct (N.leb_spec 55296 u); [|lia].
  destruct (N.leb_spec u 56319); [discriminate|].
  destruct (N.leb_spec 56320 u); [|lia].
  destruct (N.leb_spec u 57343); [discriminate | lia].
Qed.

(** What the server reads from an encoded text is the text, and the encoded
    text holds no delimiter of the query string. *)
Lemma encoded_reads_back (n : nat) :
  forall q enc,
    (List.length q <= n)%nat -> Forall is_unit q ->
    Wire.encodeURIComponent q = inr enc ->
    Wire.decodeURIComponent (Wire.unbracket enc) = Some q /\
    has_char "#" enc = false /\
    has_char "&" (Wire.unbracket enc) = false /\
    has_char "=" (Wire.unbracket enc) = false /\
    has_char "+" (Wire.unbracket enc) = false.
Proof.
  induction n as [|n IH]; intros q enc Hlen Hwf Henc.
  - destruct q; [|cbn in Hlen; lia]. cbn in Henc. injection Henc as <-.
    repeat split.
  - destruct q as [|u rest]; [cbn in Henc; injection Henc as <-; repeat split|].
    cbn [List.length] in Hlen. inversion Hwf as [|? ? Hu Hrest]; subst.
    cbn [Wire.encodeURIComponent] in Henc.
    destruct (Wire.unreserved_unit u) eqn:Eu.
    { destruct (Wire.encodeURIComponent rest) as [e|t] eqn:Er; [discriminate|].
      assert (E : enc = String (ascii_of_N u) t) by congruence. subst enc. clear Henc.
      destruct (IH rest t ltac:(lia) Hrest Er) as [D [H1 [H2 [H3 H4]]]].
      pose proof Eu as Eu'. unfold Wire.unreserved_unit in Eu'.
      apply andb_prop in Eu' as [_ Ha].
      destruct (unreserved_plain _ Ha) as [Hp [A1 [A2 [A3 [A4 _]]]]].
      rewrite (decode_unreserved u t Eu), D.
      rewrite (unbracket_plain _ _ Hp). cbn [has_char].
      rewrite A1, A2, A3, A4, H1, H2, H3, H4. repeat split. }
    destruct (Wire.is_low u) eqn:El; [discriminate|].
    destruct (Wire.is_high u) eqn:Eh.
    { destruct rest as [|v rest']; [discriminate|].
      destruct (Wire.is_low v) eqn:Elv; [|discriminate].
      destruct (Wire.encodeURIComponent rest') as [e|t] eqn:Er; [discriminate|].
      destruct (utf16_pair u v Eh Elv) as [Hs Hp]. cbv zeta in Hs, Hp.
      set (cp := (65536 + (u - 55296) * 1024 + (v - 56320))%N) in *.
      assert (E : enc = (Wire.escape cp ++ t)%string) by congruence.
      subst enc. clear Henc.
      assert (Hrest' : Forall is_unit rest') by (now inversion Hrest).
      cbn [List.length] in Hlen.
      destruct (IH rest' t ltac:(lia) Hrest' Er) as [D [H1 [H2 [H3 H4]]]].
      rewrite (decode_escape cp t Hs), D, Hp.
      destruct (clean_octets _ t (utf8_octets_small _ (proj1 Hs))) as [C1 [C2 [C3 C4]]].
      cbv zeta in C1, C2, C3, C4. unfold Wire.escape.
      rewrite C1, C2, C3, C4, H1, H2, H3, H4. repeat split. }
    destruct (Wire.encodeURIComponent rest) as [e|t] eqn:Er; [discriminate|].
    assert (E : enc = (Wire.escape u ++ t)%string) by congruence. subst enc. clear Henc.
    destruct (IH rest t ltac:(lia) Hrest Er) as [D [H1 [H2 [H3 H4]]]].
    destruct (utf16_unit u Hu Eh El) as [Hs Hp].
    rewrite (decode_escape u t Hs), D, Hp.
    destruct (clean_octets _ t (utf8_octets_small _ (proj1 Hs))) as [C1 [C2 [C3 C4]]].
    cbv zeta in C1, C2, C3, C4. unfold Wire.escape.
    rewrite C1, C2, C3, C4, H1, H2, H3, H4. repeat split.
Qed.

(** *** The parser on the request of the client *)

Lemma cut_bracket_equals_cons (c d : ascii) (s : string) :
  Wire.cut_bracket_equals (String c (String d s)) =
  if Ascii.eqb c "]" && Ascii.eqb d "=" then Some (String c EmptyString, s)
  else match Wire.cut_bracket_equals (String d s) with
       | Some (k, v) => Some (String c k, v)
       | None => None
       end.
Proof. reflexivity. Qed.

Lemma no_bracket_equals (s : string) :
  has_char "=" s = false -> forall c, Wire.cut_bracket_equals (String c s) = None.
Proof.
  induction s as [|d s IH]; intros H c; [reflexivity|].
  cbn [has_char] in H. apply orb_false_elim in H as [Hd Hs].
  rewrite cut_bracket_equals_cons. rewrite Ascii.eqb_sym in Hd.
  now rewrite Hd, andb_false_r, (IH Hs d).
Qed.

Lemma decode_units_q : Wire.decode "q" = Wire.units "q".
Proof. reflexivity. Qed.

Lemma request_is_read_back (q : Wire.jstring) (enc : string) :
  Forall is_unit q -> Wire.encodeURIComponent q = inr enc ->
  Wire.req_query_q ("/api/search?q=" ++ enc) = Wire.QString q.
Proof.
  intros Hwf Henc.
  destruct (encoded_reads_back (List.length q) q enc (Nat.le_refl _) Hwf Henc)
    as [D [H1 [H2 [H3 H4]]]].
  assert (Q : Wire.query_string ("/api/search?q=" ++ enc) = ("q=" ++ enc)%string).
  { unfold Wire.query_string.
    rewrite (split_first_absent "#"); [|cbn [append has_char]; now rewrite H1].
    reflexivity. }
  assert (P : Wire.parameters ("/api/search?q=" ++ enc) = [(Wire.units "q", q)]).
  { unfold Wire.parameters. rewrite Q.
    change ("q=" ++ enc)%string with (String "q" (String "=" enc)).
    rewrite !unbracket_plain by reflexivity.
    rewrite (split_absent "&"); [|cbn [has_char]; now rewrite H2].
    cbn [firstn map]. unfold Wire.parse_part.
    assert (C : Wire.cut_bracket_equals (String "q" (String "=" (Wire.unbracket enc))) = None).
    { rewrite cut_bracket_equals_cons. cbn [Ascii.eqb Bool.eqb andb].
      now rewrite (no_bracket_equals _ H3). }
    rewrite C.
    change (split_first "=" (String "q" (String "=" (Wire.unbracket enc))))
      with ("q", Some (Wire.unbracket enc)).
    cbv iota beta. rewrite decode_units_q.
    unfold Wire.decode. now rewrite (plus_to_space_id _ H4), D. }
  unfold Wire.req_query_q. rewrite P. reflexivity.
Qed.

(** *** The component's range inside the general model *)

Lemma latin1_unit (c : ascii) :
  Wire.unreserved_unit (code c) = unreserved c /\
  Wire.is_low (code c) = false /\ Wire.is_high (code c) = false /\
  ascii_of_N (code c) = c /\
  Wire.is_space (code c) = Text.is_space c /\
  (code c < 256)%N.
Proof. each_char c; vm_compute; repeat split. Qed.

Lemma latin1_escape (c : ascii) :
  unreserved c = false -> Wire.escape (code c) = encode_char c.
Proof. each_char c; intros H; try discriminate H; reflexivity. Qed.

Lemma latin1_encode (s : string) :
  Wire.encodeURIComponent (Wire.units s) = inr (Uri.encodeURIComponent s).
Proof.
  induction s as [|c s IH]; [reflexivity|].
  cbn [Wire.units Wire.encodeURIComponent Uri.encodeURIComponent].
  destruct (latin1_unit c) as [U [L [H [A _]]]]. rewrite U, L, H, IH.
  destruct (unreserved c) eqn:E.
  - rewrite A. unfold encode_char. now rewrite E.
  - now rewrite (latin1_escape c E).
Qed.

Lemma latin1_units_wf (s : string) : Forall is_unit (Wire.units s).
Proof.
  induction s as [|c s IH]; cbn [Wire.units]; constructor; [|exact IH].
  destruct (latin1_unit c) as [_ [_ [_ [_ [_ H]]]]]. unfold is_unit. lia.
Qed.

Lemma latin1_units_length (s : string) : List.length (Wire.units s) = String.length s.
Proof. induction s as [|c s IH]; cbn; [reflexivity | now rewrite IH]. Qed.

Lemma latin1_to_text (s : string) : Wire.to_text (Wire.units s) = Some s.
Proof.
  induction s as [|c s IH]; [reflexivity|].
  cbn [Wire.units Wire.to_text]. destruct (latin1_unit c) as [_ [_ [_ [A [_ H]]]]].
  apply N.ltb_lt in H. now rewrite H, IH, A.
Qed.

Lemma latin1_trim_start (s : string) :
  Wire.trim_start (Wire.units s) = Wire.units (Text.trim_start s).
Proof.
  induction s as [|c s IH]; [reflexivity|].
  cbn [Wire.units Wire.trim_start Text.trim_start].
  destruct (latin1_unit c) as [_ [_ [_ [_ [S _]]]]]. rewrite S.
  now destruct (Text.is_space c).
Qed.

Lemma latin1_trim_end (s : string) :
  Wire.trim_end (Wire.units s) = Wire.units (Text.trim_end s).
Proof.
  induction s as [|c s IH]; [reflexivity|].
  cbn [Wire.units Wire.trim_end Text.trim_end]. rewrite IH.
  destruct (latin1_unit c) as [_ [_ [_ [_ [S _]]]]]. rewrite S.
  destruct (Text.trim_end s); [now destruct (Text.is_space c) | reflexivity].
Qed.

Lemma latin1_fetch (s : string) :
  Wire.fetchSuggestions (Wire.units s) = call_for s.
Proof.
  unfold Wire.fetchSuggestions, call_for, Wire.trim, Text.trim, search_url.
  now rewrite latin1_trim_start, latin1_trim_end, latin1_units_length, latin1_encode.
Qed.

Lemma req_query_search_url (q : string) :
  Wire.req_query_q (search_url q) = Wire.QString (Wire.units q).
Proof.
  unfold search_url. apply request_is_read_back;
    [apply latin1_units_wf | apply latin1_encode].
Qed.

(** C10: for every query text [q] (any JavaScript string), a request the
    client sends for it has the target [/api/search?q=] followed by
    [encodeURIComponent(q)], and the server reads from that target a
    [req.query.q] that is the string [q] itself, whatever characters [q] is
    made of.  (No request is sent when [encodeURIComponent] throws, which it
    does on a text holding half a surrogate pair, or when the trimmed text is
    shorter than 2.)  On the texts of the component above, the requests are
    those the component sends. *)
Theorem query_text_reaches_server (q : Wire.jstring) :
  Forall is_unit q ->
  (forall url, In url (Wire.fetchSuggestions q) ->
     exists enc,
       Wire.encodeURIComponent q = inr enc /\
       url = ("/api/search?q=" ++ enc)%string /\
       Wire.req_query_q url = Wire.QString q) /\
  (forall (s : string) (st : State),
     requests (Client.fetchSuggestions s st) =
     requests st ++ Wire.fetchSuggestions (Wire.units s)).
Proof.
  intros Hwf. split.
  - intros url Hin. unfold Wire.fetchSuggestions in Hin.
    destruct (List.length (Wire.trim q) <? 2)%nat; [contradiction|].
    destruct (Wire.encodeURIComponent q) as [e|enc] eqn:E; [contradiction|].
    destruct Hin as [<-|[]]. exists enc. split; [reflexivity|]. split; [reflexivity|].
    now apply request_is_read_back.
  - intros s st. rewrite latin1_fetch. unfold Client.fetchSuggestions, call_for.
    destruct (String.length (Text.trim s) <? 2)%nat; cbn; [now rewrite app_nil_r | reflexivity].
Qed.

Lemma query_text_reaches_server_witness :
  let q := [97; 38; 61; 35; 37; 43; 32; 91; 93; 233; 8364; 55357; 56832]%N in
  let url := "/api/search?q=a%26%3D%23%25%2B%20%5B%5D%C3%A9%E2%82%AC%F0%9F%98%80" in
  Forall is_unit q /\
  In url (Wire.fetchSuggestions q) /\
  exists enc,
    Wire.encodeURIComponent q = inr enc /\
    url = ("/api/search?q=" ++ enc)%string /\
    Wire.req_query_q url = Wire.QString q.
Proof.
  intros q url.
  assert (H1 : Forall is_unit q) by (repeat constructor).
  assert (H2 : In url (Wire.fetchSuggestions q)) by (left; reflexivity).
  split; [exact H1|]. split; [exact H2|].
  exact (proj1 (query_text_reaches_server q H1) url H2).
Defined.

End Transport.

(** ** More on the suggestion endpoint *)
Section SearchMore.
Import Text Sqlite Server Reference Observe.

Ltac every_char c := destruct c as [[] [] [] [] [] [] [] []].

(** The first rows of a list are rows of the list, and are not repeated if
    none is. *)
Lemma firstn_members {A} (l : list A) :
  forall n x, In x (firstn n l) -> In x l.
Proof.
  induction l as [|a l IH]; intros [|n] x H; cbn in H; try contradiction.
  destruct H as [->|H]; [now left | right; now apply (IH n)].
Qed.

Lemma firstn_no_repeat {A} (l : list A) :
  forall n, NoDup l -> NoDup (firstn n l).
Proof.
  induction l as [|a l IH]; intros [|n] H; cbn; try constructor.
  - inversion H as [|? ? Hn _]; subst. intros Hin. apply Hn. now apply (firstn_members l n).
  - inversion H; subst. now apply IH.
Qed.

(** X1: whatever the store does and whatever [q] is, the suggestion handler
    answers: either 200 with a list of rows or 500 with the generic body;
    nothing thrown by the store leaves the handler, and the store is asked
    to prepare at most one statement and to run at most one. *)
Theorem search_always_answers (db : Store) (q : option string) :
  exists resp,
    outcome (search_handler db q) = inr resp /\
    ((exists rows, resp = mkResponse 200 (JItems rows)) \/ resp = generic_500) /\
    (List.length (filter is_prepare (trace (search_handler db q))) <= 1)%nat /\
    (List.length (filter is_all (trace (search_handler db q))) <= 1)%nat.
Proof.
  destruct (falsy q || (js_length q <? 2)%nat) eqn:G.
  - exists (mkResponse 200 (JItems [])). unfold search_handler. rewrite G.
    cbn. repeat split; eauto.
  - destruct q as [s|]; [|discriminate].
    assert (Hq : (2 <= String.length s)%nat).
    { apply orb_false_elim in G as [_ G]. now apply Nat.ltb_ge in G. }
    destruct (prepare db search_sql) as [e|st] eqn:Hp.
    + exists generic_500. rewrite (search_handler_prepare_fault db s e Hq Hp).
      cbn. repeat split; auto.
    + destruct (all db st [like_pattern s; like_pattern s]) as [e|rows] eqn:Ha.
      * exists generic_500. rewrite (search_handler_all_fault db s st e Hq Hp Ha).
        cbn. repeat split; auto.
      * exists (mkResponse 200 (JItems rows)).
        rewrite (search_handler_rows db s st rows Hq Hp Ha).
        cbn. repeat split; eauto.
Qed.

(** X2: on a table without NUL in its names and descriptions, a search
    text that holds no wildcard ([%], [_]) and no NUL returns no false
    positive: every row of the answer is a row of the table whose name or
    description contains the text (up to ASCII case), and a table without
    repeated rows gives an answer without repeated rows. *)
Theorem search_results_sound (table : list Item) (q : string) (rows : list Item) :
  plain q = true -> nul_free q = true -> forallb clean_row table = true ->
  outcome (search_handler (sqlite table) (Some q)) = inr (res_json (JItems rows)) ->
  (forall r, In r rows -> In r table /\ literal_match q r = true) /\
  (NoDup table -> NoDup rows).
Proof.
  intros Hp Hn Ht Ho.
  destruct (falsy (Some q) || (js_length (Some q) <? 2)%nat) eqn:G.
  - unfold search_handler in Ho. rewrite G in Ho. cbn in Ho.
    injection Ho as <-. split; [intros r []| intros _; constructor].
  - assert (Hq : (2 <= String.length q)%nat).
    { apply orb_false_elim in G as [_ G]. now apply Nat.ltb_ge in G. }
    rewrite (search_handler_sqlite table q Hq) in Ho. cbn [outcome snd] in Ho.
    assert (E : rows = firstn 5 (filter (matches q) table)).
    { set (found := firstn 5 _) in *. unfold res_json in Ho. congruence. }
    subst rows. clear Ho. rewrite forallb_forall in Ht. split.
    + intros r Hr. apply firstn_members, filter_In in Hr as [Hin Hm].
      split; [exact Hin|]. now rewrite <- (matches_plain q r Hn Hp (Ht r Hin)).
    + intros Hd. now apply firstn_no_repeat, NoDup_filter.
Qed.

Lemma search_results_sound_witness :
  (plain "book" = true /\ nul_free "book" = true /\ forallb clean_row seeded = true) /\
  exists rows,
    outcome (search_handler (sqlite seeded) (Some "book")) = inr (res_json (JItems rows)) /\
    map id rows = [4; 5; 10]%Z /\
    (forall r, In r rows -> In r seeded /\ literal_match "book" r = true) /\
    (NoDup seeded -> NoDup rows).
Proof.
  split; [now repeat split|].
  eexists. split; [vm_compute; reflexivity|]. split; [reflexivity|].
  apply (search_results_sound seeded "book"); reflexivity.
Defined.

Lemma to_lower_idem (c : ascii) : to_lower (to_lower c) = to_lower c.
Proof. every_char c; reflexivity. Qed.

Lemma to_lower_special (c : ascii) :
  Ascii.eqb (to_lower c) "%" = Ascii.eqb c "%" /\
  Ascii.eqb (to_lower c) "_" = Ascii.eqb c "_" /\
  Ascii.eqb (to_lower c) NUL = Ascii.eqb c NUL.
Proof. every_char c; repeat split. Qed.

Lemma eq_ci_lower (c d : ascii) : eq_ci (to_lower c) d = eq_ci c d.
Proof. unfold eq_ci. now rewrite to_lower_idem. Qed.

(** The pattern is read up to ASCII case. *)
Lemma like_lower (p : string) : forall s, like (lower p) s = like p s.
Proof.
  induction p as [|c p IH]; intros s; [reflexivity|].
  cbn [lower]. destruct (to_lower_special c) as [Hpc [Hus _]].
  destruct (Ascii.eqb c "%") eqn:Hc.
  - apply Ascii.eqb_eq in Hc. subst c.
    change (to_lower "%") with "%"%char.
    induction s as [|d s IHs].
    + rewrite !like_percent. now rewrite IH.
    + rewrite (like_percent (lower p)), (like_percent p). now rewrite IH, IHs.
  - destruct s as [|d s].
    + rewrite !like_cons_nil; [reflexivity | exact Hc | now rewrite Hpc].
    + rewrite !like_cons; [| exact Hc | now rewrite Hpc].
      now rewrite Hus, eq_ci_lower, IH.
Qed.

Lemma lower_app (a b : string) : lower (a ++ b) = (lower a ++ lower b)%string.
Proof. induction a as [|c a IH]; cbn [lower append]; [reflexivity | now rewrite IH]. Qed.

Lemma cstr_lower (s : string) : cstr (lower s) = lower (cstr s).
Proof.
  induction s as [|c s IH]; [reflexivity|].
  cbn [lower cstr]. destruct (to_lower_special c) as [_ [_ ->]].
  destruct (Ascii.eqb c NUL); [reflexivity|]. cbn [lower]. now rewrite IH.
Qed.

Lemma lower_length (s : string) : String.length (lower s) = String.length s.
Proof. induction s as [|c s IH]; cbn [lower String.length]; [reflexivity | now rewrite IH]. Qed.

Lemma matches_lower (q : string) (r : Item) : matches (lower q) r = matches q r.
Proof.
  rewrite !matches_unfold.
  assert (E : cstr (like_pattern (lower q)) = lower (cstr (like_pattern q))).
  { rewrite <- cstr_lower. unfold like_pattern. now rewrite !lower_app. }
  rewrite E, like_lower. destruct (description r); [now rewrite like_lower | reflexivity].
Qed.

(** X3: the search is ASCII case-insensitive in the query: on every table
    two query texts that differ only in the case of ASCII letters get the
    same answer. *)
Theorem search_ignores_query_case (table : list Item) (q1 q2 : string) :
  lower q1 = lower q2 ->
  outcome (search_handler (sqlite table) (Some q1)) =
  outcome (search_handler (sqlite table) (Some q2)).
Proof.
  intros E.
  assert (L : String.length q1 = String.length q2).
  { now rewrite <- (lower_length q1), <- (lower_length q2), E. }
  assert (M : forall r, matches q1 r = matches q2 r).
  { intros r. now rewrite <- (matches_lower q1), <- (matches_lower q2), E. }
  destruct (Nat.lt_ge_cases (String.length q1) 2) as [H|H].
  - unfold search_handler.
    rewrite !guard_short; [reflexivity | |]; right; eexists; split; eauto; lia.
  - rewrite !search_handler_sqlite by lia. cbn [outcome snd].
    do 4 f_equal. now apply filter_ext.
Qed.

Lemma search_ignores_query_case_witness :
  lower "IPHONE" = lower "iPhone" /\
  outcome (search_handler (sqlite seeded) (Some "IPHONE")) =
  outcome (search_handler (sqlite seeded) (Some "iPhone")).
Proof.
  split; [reflexivity|].
  exact (search_ignores_query_case seeded "IPHONE" "iPhone" eq_refl).
Defined.

End SearchMore.

(** ** More on the spreadsheet proxy *)
Section ProxyMore.
Import Text Sqlite Server Reference Observe.

(** X4: when the configuration is complete and the upstream call succeeds,
    the proxy answers 200 with the upstream document unchanged, having built
    one assertion and made one call, and writes nothing to the log. *)
Theorem proxy_success_passes_through
        (env : Env) (api : Google) (sid range : string) (data : Payload) :
  configured (GOOGLE_SERVICE_ACCOUNT_EMAIL env) ->
  configured (GOOGLE_PRIVATE_KEY env) ->
  values_get api (the (GOOGLE_SERVICE_ACCOUNT_EMAIL env))
             (unescape_newlines (the (GOOGLE_PRIVATE_KEY env)))
             [readonly_scope] sid range = inr data ->
  sheets_handler env api sid range =
    ([EvJWT (the (GOOGLE_SERVICE_ACCOUNT_EMAIL env))
            (unescape_newlines (the (GOOGLE_PRIVATE_KEY env))) [readonly_scope];
      EvValuesGet sid range],
     inr (mkResponse 200 (JPayload data))).
Proof.
  intros He Hk Hup.
  rewrite (sheets_handler_configured env api sid range He Hk), Hup. reflexivity.
Qed.

Lemma proxy_success_passes_through_witness :
  let api := mkGoogle (fun _ _ _ _ _ => inr "{range: 'A1:B2', values: [[1, 2]]}") in
  let env := mkEnv (Some "svc@example.iam.gserviceaccount.com") (Some "KEY") in
  (configured (GOOGLE_SERVICE_ACCOUNT_EMAIL env) /\ configured (GOOGLE_PRIVATE_KEY env)) /\
  sheets_handler env api "sheet1" "A1:B2" =
    ([EvJWT "svc@example.iam.gserviceaccount.com" "KEY" [readonly_scope];
      EvValuesGet "sheet1" "A1:B2"],
     inr (mkResponse 200 (JPayload "{range: 'A1:B2', values: [[1, 2]]}"))).
Proof.
  intros api env.
  assert (H1 : configured (GOOGLE_SERVICE_ACCOUNT_EMAIL env)) by (eexists; eexists; reflexivity).
  assert (H2 : configured (GOOGLE_PRIVATE_KEY env)) by (eexists; eexists; reflexivity).
  split; [now split|].
  exact (proxy_success_passes_through env api "sheet1" "A1:B2" _ H1 H2 eq_refl).
Defined.

(** X5: for every configuration, upstream behaviour and path, the proxy
    handler makes at most one outbound call and never a second one after a
    failure, asks for the read-only scope only, signs with the configured
    identifier and the unescaped key, and forwards the two path parameters
    as they came.  It answers, with one exception: when the upstream call
    throws an error whose code does not read as a status in 100..999,
    setting the status throws inside the [catch] and that error leaves the
    handler. *)
Theorem proxy_one_readonly_call (env : Env) (api : Google) (sid range : string) :
  let t := trace (sheets_handler env api sid range) in
  ((exists resp, outcome (sheets_handler env api sid range) = inr resp) \/
   (exists e,
      values_get api (the (GOOGLE_SERVICE_ACCOUNT_EMAIL env))
                 (unescape_newlines (the (GOOGLE_PRIVATE_KEY env)))
                 [readonly_scope] sid range = inl e /\
      ~ (100 <= status_number (code_or_500 (err_code e)) <= 999)%Z /\
      outcome (sheets_handler env api sid range) =
        inl (invalid_status (code_or_500 (err_code e))))) /\
  (List.length (filter is_call t) <= 1)%nat /\
  (forall email key scopes, In (EvJWT email key scopes) t ->
     scopes = [readonly_scope] /\
     GOOGLE_SERVICE_ACCOUNT_EMAIL env = Some email /\
     option_map unescape_newlines (GOOGLE_PRIVATE_KEY env) = Some key) /\
  (forall a b, In (EvValuesGet a b) t -> a = sid /\ b = range).
Proof.
  cbv zeta.
  destruct (falsy (GOOGLE_SERVICE_ACCOUNT_EMAIL env)) eqn:He.
  { unfold sheets_handler. rewrite He. cbn.
    split; [eauto|]. split; [lia|]. split; intros; contradiction. }
  destruct (falsy (GOOGLE_PRIVATE_KEY env)) eqn:Hk.
  { unfold sheets_handler. rewrite falsy_unescaped, He, Hk. cbn.
    split; [eauto|]. split; [lia|]. split; intros; contradiction. }
  apply falsy_configured in He. apply falsy_configured in Hk.
  rewrite (sheets_handler_configured env api sid range He Hk).
  destruct He as [c [s He]]. destruct Hk as [c' [s' Hk]]. rewrite He, Hk.
  cbn [the option_map].
  destruct (values_get api _ _ _ sid range) as [e|data] eqn:Eup; cbn [trace outcome fst snd].
  - split.
    { destruct (upstream_error_cases e) as [[_ E]|[Hn E]]; rewrite E; cbn [outcome snd];
        [left; eauto | right; exists e; repeat split; auto]. }
    split; [cbn; lia|]. split.
    + intros email key scopes [H|[H|[H|[]]]]; try discriminate.
      injection H as <- <- <-. auto.
    + intros a b [H|[H|[H|[]]]]; try discriminate. injection H as <- <-. auto.
  - split; [eauto|]. split; [cbn; lia|]. split.
    + intros email key scopes [H|[H|[]]]; try discriminate.
      injection H as <- <- <-. auto.
    + intros a b [H|[H|[]]]; try discriminate. injection H as <- <-. auto.
Qed.

Lemma proxy_one_readonly_call_witness :
  let e := mkExn (Some (CodeNumber 503)) (Some "The service is currently unavailable.") in
  let api := mkGoogle (fun _ _ _ _ _ => inl e) in
  let env := mkEnv (Some "svc@example.iam.gserviceaccount.com") (Some "A\nB") in
  let t := trace (sheets_handler env api "sheet1" "A1:B2") in
  In (EvJWT "svc@example.iam.gserviceaccount.com" (String "A" (String "010" "B"))
            [readonly_scope]) t /\
  In (EvValuesGet "sheet1" "A1:B2") t /\
  (List.length (filter is_call t) <= 1)%nat /\
  option_map unescape_newlines (GOOGLE_PRIVATE_KEY env) = Some (String "A" (String "010" "B")).
Proof.
  intros e api env t.
  assert (H1 : In (EvJWT "svc@example.iam.gserviceaccount.com" (String "A" (String "010" "B"))
                         [readonly_scope]) t) by (left; reflexivity).
  assert (H2 : In (EvValuesGet "sheet1" "A1:B2") t) by (right; left; reflexivity).
  destruct (proxy_one_readonly_call env api "sheet1" "A1:B2") as [_ [L [J _]]].
  split; [exact H1|]. split; [exact H2|]. split; [exact L|].
  exact (proj2 (proj2 (J _ _ _ H1))).
Defined.

(** X18: when the configuration is complete and the upstream call throws
    [e], the handler logs [e] and then: if the status read from
    [e.code || 500] lies in 100..999 it answers with that status and the
    body [{error: "Failed to fetch data from Google Sheets.", message:
    e.message}]; otherwise nothing is sent and an error leaves the handler.
    An integer code in 100..999 is answered as it is, and a missing code as
    500. *)
Theorem proxy_upstream_failure_status
        (env : Env) (api : Google) (sid range : string) (e : Exn) :
  configured (GOOGLE_SERVICE_ACCOUNT_EMAIL env) ->
  configured (GOOGLE_PRIVATE_KEY env) ->
  values_get api (the (GOOGLE_SERVICE_ACCOUNT_EMAIL env))
             (unescape_newlines (the (GOOGLE_PRIVATE_KEY env)))
             [readonly_scope] sid range = inl e ->
  let n := status_number (code_or_500 (err_code e)) in
  let b := JObject (("error", "Failed to fetch data from Google Sheets.") ::
                    match err_message e with
                    | Some m => [("message", m)]
                    | None => []
                    end) in
  In (EvConsoleError "Sheets proxy error:" e) (trace (sheets_handler env api sid range)) /\
  ((100 <= n <= 999)%Z ->
   outcome (sheets_handler env api sid range) = inr (mkResponse n b)) /\
  (~ (100 <= n <= 999)%Z ->
   exists x, outcome (sheets_handler env api sid range) = inl x) /\
  (forall k, err_code e = Some (CodeNumber k) -> (100 <= k <= 999)%Z -> n = k) /\
  (err_code e = None -> n = 500%Z).
Proof.
  intros He Hk Hup n b.
  rewrite (sheets_handler_configured env api sid range He Hk), Hup.
  cbn [trace outcome fst snd].
  split; [right; right; left; reflexivity|].
  assert (B : object [("error", Some "Failed to fetch data from Google Sheets.");
                      ("message", err_message e)] = b).
  { unfold object, b. cbn [defined_props]. now destruct (err_message e). }
  split; [|split; [|split]].
  - intros Hn. destruct (upstream_error_cases e) as [[_ E]|[Hno _]]; [|contradiction].
    rewrite E. cbn [outcome snd]. now rewrite B.
  - intros Hn. destruct (upstream_error_cases e) as [[Hyes _]|[_ E]]; [contradiction|].
    rewrite E. cbn [outcome snd]. eauto.
  - intros k Hc Hr. unfold n. rewrite Hc. unfold code_or_500, truthy.
    replace (k =? 0)%Z with false by (symmetry; apply Z.eqb_neq; lia).
    cbn [negb status_number]. unfold to_int32.
    rewrite Z.mod_small by lia. lia.
  - intros Hc. unfold n. rewrite Hc. reflexivity.
Qed.

Lemma proxy_upstream_failure_status_witness :
  let e := mkExn (Some (CodeNumber 404)) (Some "Range not found") in
  let api := mkGoogle (fun _ _ _ _ _ => inl e) in
  let env := mkEnv (Some "svc@example.iam.gserviceaccount.com") (Some "KEY") in
  (configured (GOOGLE_SERVICE_ACCOUNT_EMAIL env) /\ configured (GOOGLE_PRIVATE_KEY env) /\
   (100 <= status_number (code_or_500 (err_code e)) <= 999)%Z) /\
  outcome (sheets_handler env api "sheet1" "Nope!A1") =
    inr (mkResponse 404
           (JObject [("error", "Failed to fetch data from Google Sheets.");
                     ("message", "Range not found")])).
Proof.
  intros e api env.
  assert (H1 : configured (GOOGLE_SERVICE_ACCOUNT_EMAIL env)) by (eexists; eexists; reflexivity).
  assert (H2 : configured (GOOGLE_PRIVATE_KEY env)) by (eexists; eexists; reflexivity).
  assert (H3 : (100 <= status_number (code_or_500 (err_code e)) <= 999)%Z)
    by (vm_compute; split; discriminate).
  split; [now repeat split|].
  exact (proj1 (proj2 (proxy_upstream_failure_status env api "sheet1" "Nope!A1" e H1 H2 eq_refl)) H3).
Defined.

(** Unescaping, one step at a time. *)
Lemma unescape_pair (s : string) :
  unescape_newlines (String "\" (String "n" s)) = String "010" (unescape_newlines s).
Proof. reflexivity. Qed.

Lemma unescape_other (c d : ascii) (s : string) :
  Ascii.eqb c "\" && Ascii.eqb d "n" = false ->
  unescape_newlines (String c (String d s)) = String c (unescape_newlines (String d s)).
Proof. intros H. cbn [unescape_newlines]. now rewrite H. Qed.

Lemma has_escape_cons (c d : ascii) (s : string) :
  has_escape (String c (String d s)) =
  (Ascii.eqb c "\" && Ascii.eqb d "n") || has_escape (String d s).
Proof. reflexivity. Qed.

(** The first character of an unescaped text is the first character of the
    text, or a line feed. *)
Lemma unescape_head (d : ascii) (s : string) :
  exists t, unescape_newlines (String d s) = String d t \/
            unescape_newlines (String d s) = String "010" t.
Proof.
  destruct s as [|e s]; [exists EmptyString; now left|].
  destruct (Ascii.eqb d "\" && Ascii.eqb e "n") eqn:H.
  - apply andb_prop in H as [H1 H2].
    apply Ascii.eqb_eq in H1. apply Ascii.eqb_eq in H2. subst.
    eexists. right. apply unescape_pair.
  - eexists. left. now apply unescape_other.
Qed.

Lemma unescape_facts (n : nat) :
  forall s, (String.length s <= n)%nat ->
            has_escape (unescape_newlines s) = false /\
            (String.length (unescape_newlines s) <= String.length s)%nat /\
            (has_escape s = false -> unescape_newlines s = s).
Proof.
  induction n as [|n IH]; intros s Hl.
  - destruct s; [cbn; auto | cbn in Hl; lia].
  - destruct s as [|c [|d s]]; [cbn; auto | cbn; auto |].
    cbn [String.length] in Hl.
    destruct (Ascii.eqb c "\" && Ascii.eqb d "n") eqn:H.
    + apply andb_prop in H as [H1 H2].
      apply Ascii.eqb_eq in H1. apply Ascii.eqb_eq in H2. subst c d.
      rewrite unescape_pair.
      destruct (IH s ltac:(lia)) as [He [Hlen _]].
      split; [|split].
      * destruct (unescape_newlines s) as [|e t] eqn:E; [reflexivity|].
        rewrite has_escape_cons, He. reflexivity.
      * cbn [String.length]. lia.
      * rewrite has_escape_cons. cbn. discriminate.
    + rewrite (unescape_other c d s H).
      destruct (IH (String d s) ltac:(cbn [String.length]; lia)) as [He [Hlen Hid]].
      split; [|split].
      * destruct (unescape_head d s) as [t [E|E]]; rewrite E in *;
          rewrite has_escape_cons, He.
        -- now rewrite H.
        -- rewrite andb_comm. reflexivity.
      * cbn [String.length] in *. lia.
      * rewrite has_escape_cons, H. cbn [orb]. intros Hs. now rewrite (Hid Hs).
Qed.

Lemma unescape_clean (s : string) : has_escape s = false -> unescape_newlines s = s.
Proof. apply (unescape_facts (String.length s) s (Nat.le_refl _)). Qed.

(** X6: normalising the private key replaces every escaped line break: no
    backslash-n pair is left in the result, the result is never longer than
    the key, and normalising twice is the same as normalising once. *)
Theorem unescape_newlines_normalises (key : string) :
  has_escape (unescape_newlines key) = false /\
  (String.length (unescape_newlines key) <= String.length key)%nat /\
  unescape_newlines (unescape_newlines key) = unescape_newlines key.
Proof.
  destruct (unescape_facts (String.length key) key (Nat.le_refl _)) as [H1 [H2 _]].
  split; [exact H1|]. split; [exact H2|]. now apply unescape_clean.
Qed.

End ProxyMore.

(** ** Seeding the table *)
Section Seeding.
Import Text Sqlite Server Reference Observe.


Lemma largest_id_nonneg (t : list Item) : (0 <= largest_id t)%Z.
Proof. induction t as [|r t IH]; cbn [largest_id fold_right]; [lia|]. fold (largest_id t). lia. Qed.

Lemma largest_id_bound (t : list Item) (r : Item) : In r t -> (id r <= largest_id t)%Z.
Proof.
  induction t as [|x t IH]; [intros []|].
  cbn [largest_id fold_right]. fold (largest_id t).
  intros [->|H]; [lia|]. specialize (IH H). lia.
Qed.

Lemma largest_id_snoc (t : list Item) (x : Item) :
  largest_id (t ++ [x]) = Z.max (largest_id t) (Z.max (id x) 0).
Proof.
  induction t as [|r t IH]; [unfold largest_id; cbn [app fold_right]; lia|].
  cbn [app largest_id fold_right]. fold (largest_id (t ++ [x])). fold (largest_id t).
  rewrite IH. lia.
Qed.

(** One insertion: the id is above the sequence and above every id of the
    table, and within the 64-bit range. *)
Lemma insert_run_row (db db' : Db) (v : string * string * string) :
  insert_run db v = inr db' ->
  exists x,
    rows db' = rows db ++ [x] /\ sequence db' = id x /\
    (Z.max (sequence db) (largest_id (rows db)) < id x <= max_rowid)%Z.
Proof.
  destruct v as [[n d] c]. unfold insert_run, next_id.
  destruct (Z.ltb_spec (Z.max (sequence db) (largest_id (rows db))) max_rowid) as [H|H];
    [|discriminate].
  intros E. injection E as <-.
  eexists. cbn [rows sequence]. split; [reflexivity|]. split; [reflexivity|]. simpl. lia.
Qed.

Lemma increasing_weaken (ids : list Z) (a b : Z) :
  (a <= b)%Z -> increasing b ids -> increasing a ids.
Proof. destruct ids as [|i ids]; cbn [increasing]; [auto|]. intros H [Hb Hi]. split; [lia | exact Hi]. Qed.

Lemma increasing_app (l1 l2 : list Z) (m : Z) :
  forall b, increasing b l1 -> increasing m l2 -> (b <= m)%Z ->
            (forall i, In i l1 -> (i <= m)%Z) -> increasing b (l1 ++ l2).
Proof.
  induction l1 as [|i l1 IH]; intros b H1 H2 Hb Hall; cbn [app].
  - now apply (increasing_weaken l2 b m).
  - destruct H1 as [Hbi H1]. cbn [increasing]. split; [exact Hbi|].
    apply IH; [exact H1 | exact H2 | apply Hall; now left | intros; apply Hall; now right].
Qed.

(** The insertions of start-up, all of them. *)
Lemma insert_all_rows (vs : list (string * string * string)) :
  forall db db',
    insert_all db vs = inr db' ->
    exists news,
      rows db' = rows db ++ news /\ List.length news = List.length vs /\
      increasing (Z.max (sequence db) (largest_id (rows db))) (map id news) /\
      Forall (fun r => (id r <= max_rowid)%Z) news /\
      (sequence db <= sequence db')%Z.
Proof.
  induction vs as [|v vs IH]; intros db db' H; cbn [insert_all] in H.
  - injection H as <-. exists []. rewrite app_nil_r. cbn. repeat split; [constructor | lia].
  - destruct (insert_run db v) as [e|db1] eqn:E1; [discriminate|].
    destruct (insert_run_row db db1 v E1) as [x [R1 [S1 B1]]].
    destruct (IH db1 db' H) as [news [R [L [I [F S]]]]].
    exists (x :: news). rewrite R, R1, <- app_assoc. cbn [app List.length map increasing].
    split; [reflexivity|]. split; [now rewrite L|].
    pose proof (largest_id_nonneg (rows db)) as N0.
    split; [|split; [constructor; [lia | exact F] | lia]].
    split; [lia|].
    rewrite R1, S1, largest_id_snoc in I.
    replace (Z.max (id x) (Z.max (largest_id (rows db)) (Z.max (id x) 0))) with (id x) in I by lia.
    exact I.
Qed.

Lemma increasing_bound (ids : list Z) :
  forall b, increasing b ids -> forall i, In i ids -> (b < i)%Z.
Proof.
  induction ids as [|j ids IH]; intros b H i; [intros []|].
  destruct H as [Hb H]. intros [->|Hi]; [exact Hb|].
  specialize (IH j H i Hi). lia.
Qed.

(** X8: the insertions of start-up give every new row an id that is larger
    than every id in the table and than every id the table ever held (its
    sequence), and at most 2^63-1; the rows that were there stay in place,
    one row is added per value, and ids that increase along the table still
    do.  When the ids are used up, an insertion throws. *)
Theorem seeding_keeps_ids_increasing
        (db db' : Db) (vs : list (string * string * string)) :
  insert_all db vs = inr db' ->
  firstn (List.length (rows db)) (rows db') = rows db /\
  List.length (rows db') = (List.length (rows db) + List.length vs)%nat /\
  (forall r, In r (skipn (List.length (rows db)) (rows db')) ->
     (sequence db < id r /\ largest_id (rows db) < id r /\ id r <= max_rowid)%Z) /\
  (increasing 0 (map id (rows db)) -> increasing 0 (map id (rows db'))) /\
  (forall v, (max_rowid <= Z.max (sequence db) (largest_id (rows db)))%Z ->
     exists e, insert_run db v = inl e).
Proof.
  intros H. destruct (insert_all_rows vs db db' H) as [news [R [L [I [F S]]]]].
  rewrite R. split; [|split; [|split; [|split]]].
  - rewrite firstn_app, firstn_all, Nat.sub_diag. cbn. apply app_nil_r.
  - rewrite length_app. lia.
  - intros r Hr. rewrite skipn_app, skipn_all, Nat.sub_diag in Hr. cbn in Hr.
    pose proof (increasing_bound _ _ I (id r) (in_map id _ _ Hr)) as B.
    rewrite Forall_forall in F. specialize (F r Hr). lia.
  - intros Hinc. rewrite map_app.
    apply (increasing_app _ _ (Z.max (sequence db) (largest_id (rows db))));
      [exact Hinc | exact I | pose proof (largest_id_nonneg (rows db)); lia |].
    intros i Hi. apply in_map_iff in Hi as [r [<- Hr]].
    pose proof (largest_id_bound _ _ Hr). lia.
  - intros [[n d] c] Hfull. unfold insert_run, next_id.
    destruct (Z.ltb_spec (Z.max (sequence db) (largest_id (rows db))) max_rowid); [lia|].
    eauto.
Qed.

Lemma seeding_keeps_ids_increasing_witness :
  let emptied := mkDb [] 10 in
  exists db',
    startup emptied = inr db' /\
    insert_all emptied seedData = inr db' /\
    map id (rows db') = [11; 12; 13; 14; 15; 16; 17; 18; 19; 20]%Z /\
    (forall r, In r (skipn 0 (rows db')) ->
       (10 < id r /\ largest_id [] < id r /\ id r <= max_rowid)%Z).
Proof.
  intros emptied. eexists.
  assert (H : insert_all emptied seedData = inr _) by (vm_compute; reflexivity).
  split; [exact H|]. split; [exact H|]. split; [reflexivity|].
  exact (proj1 (proj2 (proj2 (seeding_keeps_ids_increasing emptied _ seedData H)))).
Defined.





End Seeding.

(** ** More on the client *)
Section ClientMore.
Import Text Sqlite Uri Client Reference Observe.

(** Projections of the state after each setter. *)
Lemma setQuery_fields (v : string) (s : State) :
  suggestions (setQuery v s) = suggestions s /\
  showSuggestions (setQuery v s) = showSuggestions s /\
  requests (setQuery v s) = requests s /\
  now (setQuery v s) = now s /\
  query (setQuery v s) = v /\
  (timer (setQuery v s) = timer s /\ v = query s \/
   timer (setQuery v s) = Some ((now s + quiet_period)%N, v)).
Proof.
  unfold setQuery. destruct (String.eqb_spec v (query s)) as [E|E]; cbn; auto 10.
Qed.

Lemma fetchSuggestions_fields (q : string) (s : State) :
  query (fetchSuggestions q s) = query s /\
  timer (fetchSuggestions q s) = timer s /\
  now (fetchSuggestions q s) = now s /\
  requests (fetchSuggestions q s) = requests s ++ call_for q.
Proof.
  unfold fetchSuggestions, call_for.
  destruct (String.length (trim q) <? 2)%nat; cbn; rewrite ?app_nil_r; auto.
Qed.

Lemma step_tracks (s : State) (a : Action) : tracks s -> tracks (step s a).
Proof.
  unfold tracks. intros H. destruct a as [dt|v| | |item|ok data|]; cbn [step].
  - unfold advance. destruct (timer s) as [[due q]|] eqn:T.
    + destruct (due <=? now s + dt)%N.
      * destruct (fetchSuggestions_fields q
          (mkState (query s) (suggestions s) (isLoading s) (showSuggestions s)
                   (selectedItem s) None (now s + dt) (requests s))) as [_ [Ht _]].
        intros due' q' E. rewrite Ht in E. discriminate.
      * cbn. intros due' q' E. injection E as <- <-.
        destruct (H due q eq_refl). split; [assumption | lia].
    + cbn. intros due' q' E. discriminate.
  - unfold onChange. destruct (setQuery_fields v s) as [_ [_ [_ [Hn [Hq [[Ht Hv]|Ht]]]]]];
      intros due q E; rewrite Ht in E; rewrite Hq, Hn.
    + subst v. now apply H.
    + injection E as <- <-. split; [reflexivity | lia].
  - unfold onFocus. destruct (2 <=? String.length (query s))%nat; cbn; exact H.
  - cbn. exact H.
  - unfold handleSelectSuggestion. cbn [timer query now setShowSuggestions].
    destruct (setQuery_fields (name item) (setSelectedItem item s))
      as [_ [_ [_ [Hn [Hq [[Ht Hv]|Ht]]]]]];
      intros due q E; rewrite Ht in E; rewrite Hq, Hn.
    + cbn in E, Hv |- *. rewrite Hv. now apply H.
    + injection E as <- <-. split; [reflexivity | cbn; lia].
  - unfold on_response. destruct ok; cbn; exact H.
  - cbn. exact H.
Qed.

(** X10: in every state the component can reach, the pending timeout (there
    is at most one) was set for the text now in the box and is due within
    the quiet period; so a request, when it is sent, carries the text in the
    box at that moment. *)
Theorem pending_fetch_is_for_current_text (l : list Action) (due : N) (q : string) :
  timer (run mount l) = Some (due, q) ->
  q = query (run mount l) /\ (due <= now (run mount l) + quiet_period)%N.
Proof.
  assert (G : forall l s, tracks s -> tracks (run s l)).
  { clear. induction l as [|a l IH]; intros s Hs; [exact Hs|].
    apply (IH (step s a)), step_tracks, Hs. }
  apply (G l mount). intros d q' E. injection E as <- <-. split; [reflexivity | lia].
Qed.

Lemma pending_fetch_is_for_current_text_witness :
  let l := [Change "ma"; Wait 120; Change "mac"; Wait 200] in
  timer (run mount l) = Some (420%N, "mac") /\
  "mac" = query (run mount l) /\ (420 <= now (run mount l) + quiet_period)%N.
Proof.
  intros l. split; [reflexivity|].
  exact (pending_fetch_is_for_current_text l 420%N "mac" eq_refl).
Defined.

Lemma step_budget (s : State) (a : Action) :
  (List.length (requests (step s a)) + pending_call (step s a) <=
   List.length (requests s) + pending_call s + (if is_edit a then 1 else 0))%nat.
Proof.
  destruct a as [dt|v| | |item|ok data|]; cbn [step is_edit].
  - unfold advance, pending_call. destruct (timer s) as [[due q]|] eqn:T.
    + destruct (due <=? now s + dt)%N.
      * unfold fetchSuggestions.
        destruct (String.length (trim q) <? 2)%nat;
          cbn [requests timer send setIsLoading setSuggestions];
          rewrite ?length_app; cbn [List.length]; lia.
      * cbn [requests timer]. destruct (String.length (trim q) <? 2)%nat; lia.
    + cbn [requests timer]. lia.
  - unfold onChange, setQuery, pending_call.
    destruct (String.eqb v (query s)); [lia|]. cbn [requests timer].
    destruct (String.length (trim v) <? 2)%nat; lia.
  - unfold onFocus. destruct (2 <=? String.length (query s))%nat; unfold pending_call;
      cbn [requests timer setShowSuggestions]; lia.
  - unfold pending_call. cbn [requests timer handleClickOutside setShowSuggestions]. lia.
  - unfold handleSelectSuggestion, setQuery, pending_call.
    cbn [requests timer query setShowSuggestions setSelectedItem].
    destruct (String.eqb (name item) (query s));
      cbn [requests timer query setShowSuggestions setSelectedItem]; [lia|].
    destruct (String.length (trim (name item)) <? 2)%nat; lia.
  - unfold on_response, pending_call.
    destruct ok; cbn [requests timer setIsLoading setShowSuggestions setSuggestions]; lia.
  - unfold pending_call. cbn [requests timer on_failure setIsLoading]. lia.
Qed.

Lemma run_budget (l : list Action) :
  forall s, (List.length (requests (run s l)) + pending_call (run s l) <=
             List.length (requests s) + pending_call s + edits l)%nat.
Proof.
  induction l as [|a l IH]; intros s; [unfold edits; cbn; lia|].
  change (run s (a :: l)) with (run (step s a) l).
  specialize (IH (step s a)). pose proof (step_budget s a) as B.
  unfold edits in *. cbn [filter]. destruct (is_edit a); cbn [List.length] in *; lia.
Qed.

(** X11: the client never sends more requests than the text was edited:
    whatever happens to the component after it mounts, the number of
    requests sent is at most the number of changes and selections. *)
Theorem at_most_one_request_per_edit (l : list Action) :
  (List.length (requests (run mount l)) <= edits l)%nat.
Proof.
  pose proof (run_budget l mount) as B.
  change (pending_call mount) with 0%nat in B.
  change (List.length (requests mount)) with 0%nat in B. lia.
Qed.

Lemma trim_start_length (s : string) : (String.length (trim_start s) <= String.length s)%nat.
Proof.
  induction s as [|c s IH]; cbn [trim_start String.length]; [lia|].
  destruct (is_space c); cbn [String.length]; lia.
Qed.

Lemma trim_end_length (s : string) : (String.length (trim_end s) <= String.length s)%nat.
Proof.
  induction s as [|c s IH]; cbn [trim_end String.length]; [lia|].
  destruct (trim_end s) as [|d t]; [destruct (is_space c)|]; cbn [String.length] in *; lia.
Qed.

Lemma trim_length (s : string) : (String.length (trim s) <= String.length s)%nat.
Proof.
  unfold trim. pose proof (trim_end_length (trim_start s)). pose proof (trim_start_length s). lia.
Qed.

Lemma step_well_formed (s : State) (a : Action) :
  well_formed (requests s) -> well_formed (requests (step s a)).
Proof.
  intros H. destruct a as [dt|v| | |item|ok data|]; cbn [step].
  - unfold advance. destruct (timer s) as [[due q]|]; [|exact H].
    destruct (due <=? now s + dt)%N; [|exact H].
    unfold fetchSuggestions.
    destruct (Nat.ltb_spec (String.length (trim q)) 2); [exact H|].
    cbn. intros u Hu. apply in_app_or in Hu as [Hu|[<-|[]]]; [now apply H|].
    exists q. now split.
  - unfold onChange. destruct (setQuery_fields v s) as [_ [_ [-> _]]]. exact H.
  - unfold onFocus. destruct (2 <=? String.length (query s))%nat; exact H.
  - exact H.
  - unfold handleSelectSuggestion. cbn [requests setShowSuggestions].
    destruct (setQuery_fields (name item) (setSelectedItem item s)) as [_ [_ [-> _]]]. exact H.
  - unfold on_response. destruct ok; exact H.
  - exact H.
Qed.

(** X12: the client and the server agree on what is worth a search.  On
    the texts of the component (characters U+0000..U+00FF), every request
    the component ever sends is [/api/search?q=] for a text of trimmed
    length at least 2; the server reads from it a [req.query.q] that is that
    same text, a single string; and the guard of the handler lets it through
    to the store. *)
Theorem sent_requests_reach_the_store (l : list Action) (u : string) :
  In u (requests (run mount l)) ->
  exists q,
    u = search_url q /\ (2 <= String.length (trim q))%nat /\
    Wire.req_query_q u = Wire.QString (Wire.units q) /\
    Wire.handler_argument (Wire.req_query_q u) = Some (Some q) /\
    forall db, hd_error (Server.trace (Server.search_handler db (Some q))) =
               Some (Server.EvPrepare search_sql).
Proof.
  assert (G : forall l s, well_formed (requests s) -> well_formed (requests (run s l))).
  { clear. induction l as [|a l IH]; intros s Hs; [exact Hs|].
    apply (IH (step s a)), step_well_formed, Hs. }
  intros Hu. destruct (G l mount (fun u H => match H with end) u Hu) as [q [-> Hq]].
  exists q. split; [reflexivity|]. split; [exact Hq|].
  rewrite req_query_search_url. split; [reflexivity|].
  split; [cbn [Wire.handler_argument]; now rewrite latin1_to_text|].
  intros db. pose proof (trim_length q) as Hl.
  unfold Server.search_handler. rewrite (guard_long q) by lia.
  unfold Server.db_prepare, Server.stmt_all, Server.try_catch, Server.bind,
    Server.lift, Server.emit, Server.ret, Server.console_error.
  destruct (prepare db search_sql) as [e|st]; [reflexivity|].
  destruct (all db st _); reflexivity.
Qed.

Lemma sent_requests_reach_the_store_witness :
  let l := [Change "so"; Wait 100; Change "sony"; Wait 300] in
  In "/api/search?q=sony" (requests (run mount l)) /\
  exists q,
    "/api/search?q=sony" = search_url q /\ (2 <= String.length (trim q))%nat /\
    Wire.req_query_q "/api/search?q=sony" = Wire.QString (Wire.units q) /\
    Wire.handler_argument (Wire.req_query_q "/api/search?q=sony") = Some (Some q) /\
    forall db, hd_error (Server.trace (Server.search_handler db (Some q))) =
               Some (Server.EvPrepare search_sql).
Proof.
  intros l.
  assert (H : In "/api/search?q=sony" (requests (run mount l))) by (left; reflexivity).
  split; [exact H|].
  exact (sent_requests_reach_the_store l "/api/search?q=sony" H).
Defined.

End ClientMore.

(** ** From the keyboard to the suggestions *)
Section EndToEnd.
Import Text Sqlite Uri Client Reference Observe.

Ltac any_char c := destruct c as [[] [] [] [] [] [] [] []].

(** X13: the whole path, on the texts of the component (characters
    U+0000..U+00FF).  When the text in the box is changed to a text [q] of
    trimmed length at least 2 that holds no wildcard ([%], [_]) and no NUL,
    and nothing else happens for the quiet period, the component sends
    exactly one request; the server, reading that request on a table without
    NUL in its names and descriptions, answers 200 with the literal matches
    of [q] (first five); and when that answer arrives the component holds
    those rows as its suggestions, with the dropdown flag set and the
    loading flag cleared. *)
Theorem typed_text_to_suggestions
        (table : list Item) (s : State) (q : string) (d : N) :
  q <> query s -> (2 <= String.length (trim q))%nat ->
  plain q = true -> nul_free q = true -> forallb clean_row table = true ->
  (quiet_period <= d)%N ->
  let s1 := run s [Change q; Wait d] in
  let answer := literal_search q table in
  let s2 := step s1 (Response true answer) in
  requests s1 = requests s ++ [search_url q] /\
  option_map Server.outcome (serve table (search_url q)) =
    Some (inr (Server.res_json (Server.JItems answer))) /\
  suggestions s2 = answer /\ showSuggestions s2 = true /\ isLoading s2 = false.
Proof.
  intros Hq Hlen Hp Hn Ht Hd s1 answer s2.
  destruct (change_arms s q Hq) as [Ha [Hq' Hr]].
  destruct (wait_long (onChange q s) d Ha Hd) as [_ Hreq].
  cbv zeta in Hreq. rewrite Hq', Hr in Hreq.
  split; [|split].
  - subst s1. cbn [run fold_left step]. rewrite Hreq. unfold call_for.
    destruct (Nat.ltb_spec (String.length (trim q)) 2); [lia | reflexivity].
  - unfold serve. rewrite req_query_search_url.
    cbn [Wire.handler_argument]. rewrite latin1_to_text. cbn [option_map].
    pose proof (trim_length q) as Hl.
    rewrite (search_handler_sqlite table q) by lia. cbn [Server.outcome snd].
    unfold answer, literal_search. do 5 f_equal.
    apply filter_ext_in. intros r Hr'. rewrite forallb_forall in Ht.
    apply matches_plain; auto.
  - subst s2. cbn [step]. unfold on_response. cbn. auto.
Qed.

Lemma typed_text_to_suggestions_witness :
  let s1 := run mount [Change "key"; Wait 300] in
  let answer := literal_search "key" seeded in
  ("key" <> query mount /\ (2 <= String.length (trim "key"))%nat /\
   plain "key" = true /\ nul_free "key" = true /\ forallb clean_row seeded = true /\
   (quiet_period <= 300)%N) /\
  requests s1 = ["/api/search?q=key"] /\
  option_map Server.outcome (serve seeded "/api/search?q=key") =
    Some (inr (Server.res_json (Server.JItems answer))) /\
  map name answer = ["Keychron K2"] /\
  suggestions (step s1 (Response true answer)) = answer.
Proof.
  intros s1 answer.
  assert (H1 : "key" <> query mount) by discriminate.
  assert (H2 : (2 <= String.length (trim "key"))%nat) by (vm_compute; lia).
  assert (H3 : (quiet_period <= 300)%N) by (unfold quiet_period; lia).
  split; [repeat split; auto|].
  destruct (typed_text_to_suggestions seeded mount "key" 300 H1 H2 eq_refl eq_refl eq_refl H3)
    as [R [O [S _]]].
  split; [exact R|]. split; [exact O|]. split; [reflexivity | exact S].
Defined.

(** X14: when the text is changed to one of trimmed length below 2 (the box
    is cleared, or holds one character or blanks) and the quiet period
    passes, no request is sent, the suggestions are emptied and the
    dropdown is not shown. *)
Theorem short_text_clears_suggestions (s : State) (v : string) (d : N) :
  v <> query s -> (String.length (trim v) < 2)%nat -> (quiet_period <= d)%N ->
  let s' := run s [Change v; Wait d] in
  requests s' = requests s /\ suggestions s' = [] /\
  dropdown_visible s' = false /\ timer s' = None.
Proof.
  intros Hv Hs Hd. cbn [run fold_left step].
  unfold onChange, setQuery. apply String.eqb_neq in Hv. rewrite Hv.
  unfold advance. cbn [timer now query suggestions isLoading showSuggestions selectedItem requests].
  destruct (N.leb_spec (now s + quiet_period) (now s + d)) as [H|H]; [|lia].
  unfold fetchSuggestions. apply Nat.ltb_lt in Hs. rewrite Hs.
  unfold dropdown_visible. cbn. rewrite andb_false_r. auto.
Qed.

Lemma short_text_clears_suggestions_witness :
  let s := run mount [Change "ap"; Wait 300; Response true seeded] in
  (EmptyString <> query s /\ (String.length (trim EmptyString) < 2)%nat /\
   (quiet_period <= 300)%N) /\
  dropdown_visible s = true /\
  let s' := run s [Change EmptyString; Wait 300] in
  requests s' = requests s /\ suggestions s' = [] /\
  dropdown_visible s' = false /\ timer s' = None.
Proof.
  intros s.
  assert (H1 : EmptyString <> query s) by discriminate.
  assert (H2 : (String.length (trim EmptyString) < 2)%nat) by (cbn; lia).
  assert (H3 : (quiet_period <= 300)%N) by (unfold quiet_period; lia).
  split; [now repeat split|]. split; [reflexivity|].
  exact (short_text_clears_suggestions s EmptyString 300 H1 H2 H3).
Defined.

Lemma step_suggestions (s : State) (a : Action) :
  suggestions (step s a) = suggestions s \/ suggestions (step s a) = [] \/
  a = Response true (suggestions (step s a)).
Proof.
  destruct a as [dt|v| | |item|ok data|]; cbn [step].
  - unfold advance. destruct (timer s) as [[due q]|]; [|now left].
    destruct (due <=? now s + dt)%N; [|now left].
    unfold fetchSuggestions. destruct (String.length (trim q) <? 2)%nat; cbn; auto.
  - left. unfold onChange. apply setQuery_fields.
  - left. unfold onFocus. now destruct (2 <=? String.length (query s))%nat.
  - now left.
  - left. unfold handleSelectSuggestion. cbn [suggestions setShowSuggestions].
    now destruct (setQuery_fields (name item) (setSelectedItem item s)) as [-> _].
  - destruct ok; cbn; auto.
  - now left.
Qed.

Lemma run_suggestions (l : list Action) :
  forall s done,
    (suggestions s = [] \/ In (Response true (suggestions s)) done) ->
    suggestions (run s l) = [] \/ In (Response true (suggestions (run s l))) (done ++ l).
Proof.
  induction l as [|a l IH]; intros s done H.
  - rewrite app_nil_r. exact H.
  - change (run s (a :: l)) with (run (step s a) l).
    replace (done ++ a :: l) with ((done ++ [a]) ++ l) by now rewrite <- app_assoc.
    apply IH. destruct (step_suggestions s a) as [E|[E|E]].
    + rewrite E. destruct H as [H|H]; [now left|]. right. apply in_or_app. now left.
    + now left.
    + right. apply in_or_app. right. left. exact E.
Qed.

(** X15: the suggestions the component holds are never made up locally:
    after any sequence of events since mounting they are either empty or
    exactly the body of a successful response that was received. *)
Theorem suggestions_come_from_responses (l : list Action) :
  suggestions (run mount l) = [] \/
  In (Response true (suggestions (run mount l))) l.
Proof. apply (run_suggestions l mount []). now left. Qed.

Lemma all_chars_app (p : ascii -> bool) (a b : string) :
  all_chars p (a ++ b) = all_chars p a && all_chars p b.
Proof.
  induction a as [|c a IH]; cbn [append all_chars]; [reflexivity|].
  now rewrite IH, andb_assoc.
Qed.

Lemma encode_char_shape (c : ascii) :
  all_chars url_safe (encode_char c) = true /\
  (1 <= String.length (encode_char c) <= 6)%nat.
Proof. any_char c; vm_compute; repeat split; repeat constructor. Qed.

Lemma string_length_app (a b : string) :
  String.length (a ++ b) = (String.length a + String.length b)%nat.
Proof. induction a as [|c a IH]; cbn [append String.length]; [reflexivity | now rewrite IH]. Qed.

(** X16: the encoded query consists of unreserved characters and [%XX]
    escapes only, is at least as long as the text and at most six times as
    long, and distinct texts give distinct request targets. *)
Theorem request_target_is_safe_and_unambiguous (q q' : string) :
  all_chars url_safe (encodeURIComponent q) = true /\
  (String.length q <= String.length (encodeURIComponent q) <= 6 * String.length q)%nat /\
  (search_url q = search_url q' -> q = q').
Proof.
  split; [|split].
  - induction q as [|c q IH]; [reflexivity|].
    cbn [encodeURIComponent]. rewrite all_chars_app, IH.
    now destruct (encode_char_shape c) as [-> _].
  - induction q as [|c q IH]; [cbn; lia|].
    cbn [encodeURIComponent]. rewrite string_length_app. cbn [String.length].
    destruct (encode_char_shape c) as [_ H]. lia.
  - intros H. unfold search_url in H. cbn [append] in H.
    assert (E : encodeURIComponent q = encodeURIComponent q') by congruence.
    pose proof (encoded_reads_back _ _ _ (Nat.le_refl _) (latin1_units_wf q) (latin1_encode q))
      as [D _].
    pose proof (encoded_reads_back _ _ _ (Nat.le_refl _) (latin1_units_wf q') (latin1_encode q'))
      as [D' _].
    rewrite E, D' in D. injection D as D.
    pose proof (latin1_to_text q) as T. rewrite <- D, latin1_to_text in T. congruence.
Qed.

Lemma request_target_is_safe_and_unambiguous_witness :
  search_url "a&b" = search_url "a&b" /\
  encodeURIComponent "a&b" = "a%26b" /\
  all_chars url_safe (encodeURIComponent "a&b") = true /\ "a&b" = "a&b".
Proof.
  destruct (request_target_is_safe_and_unambiguous "a&b" "a&b") as [S [_ I]].
  split; [reflexivity|]. split; [reflexivity|]. split; [exact S | exact (I eq_refl)].
Defined.

End EndToEnd.

(** ** A query of wildcards *)
Section Wildcards.
Import Text Sqlite Server Reference Observe.

Lemma percent_only_like (p : string) :
  all_chars (Ascii.eqb "%") p = true -> p <> EmptyString -> forall s, like p s = true.
Proof.
  induction p as [|c p IH]; intros H Hne s; [contradiction|].
  cbn [all_chars] in H. apply andb_prop in H as [Hc Hp].
  apply Ascii.eqb_eq in Hc. subst c.
  destruct p as [|c' p']; [apply like_only_percent|].
  apply like_percent_here, IH; [exact Hp | discriminate].
Qed.

Lemma percent_only_no_nul (p : string) :
  all_chars (Ascii.eqb "%") p = true -> has_char NUL p = false.
Proof.
  induction p as [|c p IH]; cbn [all_chars has_char]; intros H; [reflexivity|].
  apply andb_prop in H as [Hc Hp]. apply Ascii.eqb_eq in Hc. subst c.
  now rewrite (IH Hp).
Qed.

Lemma filter_all {A} (f : A -> bool) (l : list A) :
  (forall x, f x = true) -> filter f l = l.
Proof.
  intros H. induction l as [|a l IH]; cbn [filter]; [reflexivity|].
  now rewrite H, IH.
Qed.

(** X17: a query made of [%] only (two or more) matches every row: the
    endpoint answers with the first five rows of the table, whatever they
    contain. *)
Theorem wildcard_query_lists_the_table (table : list Item) (q : string) :
  (2 <= String.length q)%nat -> all_chars (Ascii.eqb "%") q = true ->
  search_handler (sqlite table) (Some q) =
    ([EvPrepare search_sql; EvAll [like_pattern q; like_pattern q]],
     inr (res_json (JItems (firstn 5 table)))).
Proof.
  intros Hq Hall. rewrite (search_handler_sqlite table q Hq).
  do 5 f_equal. apply filter_all. intros r.
  assert (P : all_chars (Ascii.eqb "%") (like_pattern q) = true).
  { unfold like_pattern. change ("%" ++ q ++ "%")%string with (String "%" (q ++ "%")).
    cbn [all_chars]. rewrite all_chars_app, Hall. reflexivity. }
  rewrite matches_unfold, (cstr_nul_free _ (percent_only_no_nul _ P)).
  rewrite percent_only_like; [reflexivity | exact P | discriminate].
Qed.

Lemma wildcard_query_lists_the_table_witness :
  ((2 <= String.length "%%")%nat /\ all_chars (Ascii.eqb "%") "%%" = true) /\
  search_handler (sqlite seeded) (Some "%%") =
    ([EvPrepare search_sql; EvAll ["%%%%"; "%%%%"]],
     inr (res_json (JItems (firstn 5 seeded)))).
Proof.
  assert (H1 : (2 <= String.length "%%")%nat) by (cbn; lia).
  split; [now split|].
  exact (wildcard_query_lists_the_table seeded "%%" H1 eq_refl).
Defined.

End Wildcards.
